(** * QuackScript: the tree-walking evaluator

    A shallow embedding of [src/Lib/quackscript/src/interpreter/index.ts]
    (class [Interpreter]) and the properties of its operational semantics.

    The evaluator is stateful ([_memory], [_state], [_system]) and throws
    exceptions, so it is embedded in a state-and-exception monad in which a
    thrown exception keeps the mutations made before the throw.  User
    functions may recurse for ever: the methods are written over the three
    through which evaluation recurses ([executeExpressionNode],
    [executeCodeBlock], [executeModule]), and [evaluator] closes the loop
    with fuel. *)

From Stdlib Require Floats.PrimFloat Floats.SpecFloat Floats.FloatOps.
From stdpp Require Import base option list strings gmap.

Local Open Scope string_scope.

(** ** The abstract syntax tree ([parser/types], consumed by the evaluator) *)

(** Source positions are carried for diagnostics only; [None] is the missing
    [position] field of a node the evaluator builds itself. *)
Definition Position : Type := option nat.

(** [node.operator] of a [BinaryExpressionNode]: the operators the evaluator
    dispatches on. *)
Inductive Operator : Type :=
  | OpNeq   (* != *)
  | OpAnd   (* && *)
  | OpEq    (* == *)
  | OpOr    (* || *)
  | OpMod   (* %  *)
  | OpMul   (* *  *)
  | OpSub   (* -  *)
  | OpAdd   (* +  *)
  | OpDiv   (* /  *)
  | OpLt    (* <  *)
  | OpLe    (* <= *)
  | OpGe    (* >= *)
  | OpGt.   (* >  *)

(** [param.identifier.value] and [param.dataType.value]. *)
Record ParamNode : Type := mkParam {
  param_identifier : string;
  param_dataType : string
}.

(** [node.dataType] of a declaration: [value] is the declared type name, and
    for an [OptionalDataType] [internalType] is the wrapped type. *)
Record DataTypeNode : Type := mkDataType {
  dataType_value : string;
  dataType_internalType : option string
}.

Inductive DeclaratorType : Type := constant | variable | argument.

(** Runtime values are AST nodes: the literal nodes and the two function
    declaration nodes.  [parameters] is optional in the source
    ([fn.parameters?.params ?? []]). *)
Inductive Value : Type :=
  | NumberLiteral (value : PrimFloat.float) (position : Position)
  | TextLiteral (value : string) (position : Position)
  | BooleanLiteral (value : bool) (position : Position)
  | NothingLiteral (position : Position)
  | Vector2Literal (x y : PrimFloat.float) (position : Position)
  | Vector3Literal (x y z : PrimFloat.float) (position : Position)
  | FuncDeclaration (parameters : option (list ParamNode))
                    (body : CodeBlockNode) (position : Position)
  | InternalFuncDeclaration (identifier : string)
                    (parameters : option (list ParamNode)) (position : Position)

with ExpressionNode : Type :=
  | Expression (body : ExpressionBody) (position : Position)

with ExpressionBody : Type :=
  (* 'FuncDeclaration', 'TextLiteral', 'BooleanLiteral', 'NothingLiteral',
     'Vector2Literal', 'Vector3Literal', 'NumberLiteral': the node is its own
     value (an internal function is no expression body in the parser) *)
  | Literal (v : Value)
  | FuncCallNode (identifier : string) (params : option (list ExpressionNode))
                 (position : Position)
  | Identifier (value : string)
  | BinaryExpression (left : LeftOperand) (operator : Operator)
                     (right : ExpressionNode) (position : Position)
  | AccessorExpression (expression : ExpressionNode) (value : AccessorValue)
                       (position : Position)

(** [node.left] of a binary expression is an identifier or a literal. *)
with LeftOperand : Type :=
  | LeftIdentifier (value : string) (position : Position)
  | LeftLiteral (v : Value)

(** [node.value] of an accessor expression: a method call or anything else. *)
with AccessorValue : Type :=
  | AccessorFuncCall (identifier : string)
  | AccessorField (name : string)

with StatementNode : Type :=
  | Statement (body : StatementBody) (position : Position)

with StatementBody : Type :=
  | Declaration (declaratorType : DeclaratorType) (identifier : string)
                (expression : ExpressionNode) (dataType : option DataTypeNode)
                (isOptional : bool)
  | Assignment (identifier : string) (expression : ExpressionNode)
  | ExpressionStatement (e : ExpressionNode)
  | ReturnStatement (value : ExpressionNode)
  | IfStatement (condition : ExpressionNode) (trueExpression : CodeBlockNode)
                (falseExpression : option CodeBlockNode) (position : Position)
  | ImportStatement (value : string)

with CodeBlockNode : Type :=
  | CodeBlock (body : list StatementNode).

Record ModuleNode : Type := Module_ { statements : list StatementNode }.

(** [value.type]: the tag of a value. *)
Inductive ValueType : Type :=
  | TNumberLiteral | TTextLiteral | TBooleanLiteral | TNothingLiteral
  | TVector2Literal | TVector3Literal
  | TFuncDeclaration | TInternalFuncDeclaration.

#[global] Instance ValueType_eq_dec : EqDecision ValueType.
Proof. solve_decision. Defined.

Definition typeOf (v : Value) : ValueType :=
  match v with
  | NumberLiteral _ _ => TNumberLiteral
  | TextLiteral _ _ => TTextLiteral
  | BooleanLiteral _ _ => TBooleanLiteral
  | NothingLiteral _ => TNothingLiteral
  | Vector2Literal _ _ _ => TVector2Literal
  | Vector3Literal _ _ _ _ => TVector3Literal
  | FuncDeclaration _ _ _ => TFuncDeclaration
  | InternalFuncDeclaration _ _ _ => TInternalFuncDeclaration
  end.

Definition positionOf (v : Value) : Position :=
  match v with
  | NumberLiteral _ p | TextLiteral _ p | BooleanLiteral _ p
  | NothingLiteral p | Vector2Literal _ _ p | Vector3Literal _ _ _ p
  | FuncDeclaration _ _ p | InternalFuncDeclaration _ _ p => p
  end.

#[global] Instance Operator_eq_dec : EqDecision Operator.
Proof. solve_decision. Defined.

(** [fn.parameters?.params ?? []] for [fn] read as a
    [GenericFuncDeclarationNode]: any other node has no [parameters]. *)
Definition parametersOf (fn : Value) : list ParamNode :=
  match fn with
  | FuncDeclaration parameters _ _ => default [] parameters
  | InternalFuncDeclaration _ parameters _ => default [] parameters
  | _ => []
  end.

(** [(fn as FuncDeclarationNode).body], undefined on any other node. *)
Definition bodyOf (fn : Value) : option CodeBlockNode :=
  match fn with
  | FuncDeclaration _ body _ => Some body
  | _ => None
  end.

(** ** Exceptions *)

(** The messages of the [RuntimeException]s, named after the error taxonomy
    of the specification. *)
Inductive ErrorKind : Type :=
  | ImportNotAtTop          (* 'Import statements must be at the top of the file' *)
  | NonBooleanCondition     (* 'Invalid boolean expression' *)
  | NotCallable (id : string)   (* `Tried to call variable '${id}' as a function` *)
  | CallOnNothing           (* 'Tried to call 'nothing' as a function' *)
  | ArityMismatch (expected got : nat)
                            (* `Expecting ${n} arguments but got ${m} arguments` *)
  | ArgumentTypeMismatch (expected got : string)
                            (* `Expected argument of type ${t} but got ${u}` *)
  | UnknownAttribute        (* `Attribute ${node.value} is not part ${type}` *)
  | InvalidBinaryOperand    (* 'Invalid binary expression' *)
  | InvalidBinaryExpression (* 'Unable to parse binary expression' *)
  | UndefinedIdentifier (id : string)   (* raised by Memory *)
  | RedeclarationError (id : string)    (* raised by Memory *)
  | AssignToConstant (id : string)      (* raised by Memory *)
  | HostError (message : string)        (* raised by a host routine *)
  (* in the taxonomy of the specification, never constructed below *)
  | TypeMismatch
  | NullToNonOptional
  | ReturnOutsideFunction.

(** [new RuntimeException(position, message, code)]. *)
Record RuntimeException : Type := mkRuntimeException {
  ex_position : Position;
  ex_kind : ErrorKind;
  ex_code : option string
}.

(** What a host routine, the lexer or the parser can throw: a
    [RuntimeException] or any other [Error]. *)
Inductive Failure : Type :=
  | RuntimeError (e : RuntimeException)
  | InternalError (message : string).

Inductive ControlFlowType : Type := Return.

(** Everything the evaluator can throw: a failure, or the control-flow
    signal [new ControlFlowException(type, data)], which is not a
    [RuntimeException]. *)
Inductive Exception : Type :=
  | Fail_ (f : Failure)
  | ControlFlowException (type : ControlFlowType) (data : Value).

Inductive HostResult (A : Type) : Type :=
  | Returned (a : A)
  | Failed (f : Failure).
Arguments Returned {A} a.
Arguments Failed {A} f.

(** ** Memory, State and System *)

(** A memory cell ([MemoryValue] / [OptionalMemoryValue]). *)
Record MemoryValue : Type := mkMemoryValue {
  declarationType : DeclaratorType;
  identifier : string;
  type : string;
  value : Value;
  internalType : option string
}.

(** Modelled from the spec: the class [Memory] ([interpreter/memory]), of
    which only the calls are in the evaluator.  Section 3.3: the environment
    is a stack of scopes, a scope is a map from identifier to cell; section
    4.2 gives the contract of each operation.  The head of the list is the
    innermost scope. *)
Module Memory.

Definition t : Type := list (gmap string MemoryValue).

(** [clearMemory()]: resets to a single empty global scope. *)
Definition clearMemory (m : t) : t := [∅].

(** [createScope()] / [clearScope()]: push / pop a scope. *)
Definition createScope (m : t) : t := ∅ :: m.
Definition clearScope (m : t) : t := tail m.

(** [get(id)]: searches scopes innermost-outward; fails with
    [UndefinedIdentifier] if not found. *)
Fixpoint get (m : t) (id : string) : ErrorKind + MemoryValue :=
  match m with
  | [] => inl (UndefinedIdentifier id)
  | scope :: outer =>
      match scope !! id with
      | Some cell => inr cell
      | None => get outer id
      end
  end.

(** [set(id, cell)]: inserts the cell into the innermost scope; fails with
    [RedeclarationError] if [id] already exists in that scope.  (On a stack
    without any scope, which the evaluator never leaves behind, the cell
    starts one.) *)
Definition set (m : t) (id : string) (cell : MemoryValue) : ErrorKind + t :=
  match m with
  | [] => inr [ {[ id := cell ]} ]
  | scope :: outer =>
      match scope !! id with
      | Some _ => inl (RedeclarationError id)
      | None => inr (<[ id := cell ]> scope :: outer)
      end
  end.

(** [update(id, value)]: locates the cell in any scope and replaces its
    value; fails with [UndefinedIdentifier] if absent and with
    [AssignToConstant] if the cell is a constant.  The type of the cell is
    not changed, and (section 9) the source does not compare the new
    value with it. *)
Fixpoint update (m : t) (id : string) (v : Value) : ErrorKind + t :=
  match m with
  | [] => inl (UndefinedIdentifier id)
  | scope :: outer =>
      match scope !! id with
      | Some cell =>
          match declarationType cell with
          | constant => inl (AssignToConstant id)
          | _ =>
              inr (<[ id := mkMemoryValue (declarationType cell)
                            (identifier cell) (type cell) v
                            (internalType cell) ]> scope :: outer)
          end
      | None =>
          match update outer id v with
          | inl e => inl e
          | inr outer' => inr (scope :: outer')
          end
      end
  end.

(** The depth of the scope stack. *)
Definition depth (m : t) : nat := length m.

End Memory.

(** Modelled from the spec: the class [State] ([interpreter/state]), section
    4.3: an independent stack of context tags with [push] and [pop]. *)
Module State.

Definition t : Type := list string.

Definition push (s : t) (ctx : string) : t := ctx :: s.
Definition pop (s : t) : t := tail s.

End State.

(** The host facade [System]: what has been passed to its [stdout] and
    [stderr] callables, oldest first. *)
Record System : Type := mkSystem {
  stdout : list string;
  stderr : list string
}.

(** The fields of the [Interpreter] object that evaluation reads and
    writes. *)
Record Interpreter : Type := mkInterpreter {
  _memory : Memory.t;
  _state : State.t;
  _system : System;
  _code : option string
}.

(** What the evaluator imports from the rest of the library and from the
    JavaScript host.  None of it is in the evaluator's file, so it is a
    parameter of the semantics. *)
Record Host : Type := mkHost {
  (* DataTypeUtils.valueToDataType(value.type) *)
  valueToDataType : ValueType -> string;
  (* DataTypeUtils.convertValueToText(value).value *)
  convertValueToText : Value -> string;
  (* er.toString() *)
  exceptionToString : RuntimeException -> string;
  (* parser.parse(lexer.convertToTokens(system.loadFile(path))) *)
  loadModule : string -> HostResult ModuleNode;
  (* executeInternalFunc(fn, memory, system) *)
  executeInternalFunc :
    Value -> Memory.t -> System -> HostResult Value * Memory.t * System;
  (* StaticPrimitiveAttributes.executeStaticFunction(identifier, value) *)
  executeStaticFunction : string -> Value -> HostResult Value
}.

(** The operator [%] of JavaScript on numbers (Number::remainder): NaN when
    an operand is NaN, the dividend is infinite or the divisor is zero; the
    dividend when the divisor is infinite or the dividend is zero; otherwise
    the exact remainder of the truncating division, with the sign of the
    dividend.  Both operands are written over their smaller exponent, where
    the remainder is the one of their integer mantissas. *)
Definition remainder (n d : PrimFloat.float) : PrimFloat.float :=
  match FloatOps.Prim2SF n, FloatOps.Prim2SF d with
  | SpecFloat.S754_nan, _ | _, SpecFloat.S754_nan => PrimFloat.nan
  | SpecFloat.S754_infinity _, _ => PrimFloat.nan
  | _, SpecFloat.S754_zero _ => PrimFloat.nan
  | _, SpecFloat.S754_infinity _ => n
  | SpecFloat.S754_zero _, _ => n
  | SpecFloat.S754_finite sn mn en, SpecFloat.S754_finite _ md ed =>
      let e := Z.min en ed in
      let N := (Z.pos mn * 2 ^ (en - e))%Z in
      let D := (Z.pos md * 2 ^ (ed - e))%Z in
      FloatOps.SF2Prim
        (SpecFloat.binary_normalize FloatOps.prec FloatOps.emax
           (SpecFloat.cond_Zopp sn (N mod D)%Z) e sn)
  end.

(** ** The evaluation monad *)

Inductive Outcome (A : Type) : Type :=
  | Ok (a : A)              (* the call returns [a] *)
  | Throw (ex : Exception)  (* the call throws [ex] *)
  | OutOfFuel.              (* the model ran out of fuel *)
Arguments Ok {A} a.
Arguments Throw {A} ex.
Arguments OutOfFuel {A}.

(** A method of the interpreter: from the object's state to an outcome and
    the state it leaves behind, also when it throws. *)
Definition Exec (A : Type) : Type := Interpreter -> Outcome A * Interpreter.

Definition ret {A} (a : A) : Exec A := fun this => (Ok a, this).

Definition bind {A B} (m : Exec A) (k : A -> Exec B) : Exec B :=
  fun this =>
    match m this with
    | (Ok a, this') => k a this'
    | (Throw ex, this') => (Throw ex, this')
    | (OutOfFuel, this') => (OutOfFuel, this')
    end.

Notation "x <- m ;; k" := (bind m (fun x => k))
  (at level 100, m at next level, right associativity).
Notation "m ;;; k" := (bind m (fun _ => k))
  (at level 100, right associativity).

Definition throw {A} (ex : Exception) : Exec A := fun this => (Throw ex, this).

(** [throw new RuntimeException(position, message, this._code)]. *)
Definition throwRuntime {A} (position : Position) (kind : ErrorKind) : Exec A :=
  fun this =>
    (Throw (Fail_ (RuntimeError (mkRuntimeException position kind (_code this)))),
     this).

(** [throw new RuntimeException(position, message)], without the code. *)
Definition throwRuntimeNoCode {A} (position : Position) (kind : ErrorKind)
  : Exec A :=
  throw (Fail_ (RuntimeError (mkRuntimeException position kind None))).

(** [try { m } catch (ex) { handler(ex) }]. *)
Definition tryCatch {A} (m : Exec A) (handler : Exception -> Exec A) : Exec A :=
  fun this =>
    match m this with
    | (Throw ex, this') => handler ex this'
    | r => r
    end.

Definition getMemory : Exec Memory.t := fun this => (Ok (_memory this), this).

Definition putMemory (m : Memory.t) : Exec unit :=
  fun this =>
    (Ok tt, mkInterpreter m (_state this) (_system this) (_code this)).

Definition putState (s : State.t) : Exec unit :=
  fun this =>
    (Ok tt, mkInterpreter (_memory this) s (_system this) (_code this)).

Definition putSystem (sys : System) : Exec unit :=
  fun this =>
    (Ok tt, mkInterpreter (_memory this) (_state this) sys (_code this)).

(** The errors of [Memory] are runtime errors without position or code. *)
Definition liftMemory {A} (r : ErrorKind + A) : Exec A :=
  match r with
  | inl kind => throwRuntimeNoCode None kind
  | inr a => ret a
  end.

(** [this._memory.get(id)], [.set(id, cell)], [.update(id, value)],
    [.createScope()], [.clearScope()]. *)
Definition memory_get (id : string) : Exec MemoryValue :=
  fun this => liftMemory (Memory.get (_memory this) id) this.

Definition memory_set (id : string) (cell : MemoryValue) : Exec unit :=
  fun this =>
    (m <- liftMemory (Memory.set (_memory this) id cell) ;; putMemory m) this.

Definition memory_update (id : string) (v : Value) : Exec unit :=
  fun this =>
    (m <- liftMemory (Memory.update (_memory this) id v) ;; putMemory m) this.

Definition memory_createScope : Exec unit :=
  fun this => putMemory (Memory.createScope (_memory this)) this.

Definition memory_clearScope : Exec unit :=
  fun this => putMemory (Memory.clearScope (_memory this)) this.

(** [this._state.push(ctx)], [this._state.pop()]. *)
Definition state_push (ctx : string) : Exec unit :=
  fun this => putState (State.push (_state this) ctx) this.

Definition state_pop : Exec unit :=
  fun this => putState (State.pop (_state this)) this.

(** [this._system.stdout(text)], [this._system.stderr(text)]. *)
Definition system_stdout (text : string) : Exec unit :=
  fun this =>
    putSystem (mkSystem (stdout (_system this) ++ [text])
                        (stderr (_system this))) this.

Definition system_stderr (text : string) : Exec unit :=
  fun this =>
    putSystem (mkSystem (stdout (_system this))
                        (stderr (_system this) ++ [text])) this.

Definition liftHost {A} (r : HostResult A) : Exec A :=
  match r with
  | Returned a => ret a
  | Failed f => throw (Fail_ f)
  end.

(** ** The methods of the evaluator *)

(** The three methods through which evaluation recurses, as the methods
    below call them. *)
Record Evaluator : Type := mkEvaluator {
  evalExpressionNode : ExpressionNode -> Exec Value;
  evalCodeBlock : CodeBlockNode -> Exec unit;
  (* also returns the module object as the call leaves it *)
  evalModule : ModuleNode -> Interpreter -> Outcome unit * ModuleNode * Interpreter
}.

Section Methods.

Context (host : Host) (self : Evaluator).

(** *** [executeBinaryExpression] *)

(** The switch of the block "both are boolean"; [None] is [finalValue]
    left [null]. *)
Definition booleanOperator (operator : Operator) (l r : bool) : option bool :=
  match operator with
  | OpNeq => Some (negb (Bool.eqb l r))
  | OpAnd => Some (l && r)
  | OpEq => Some (Bool.eqb l r)
  | OpOr => Some (l || r)
  | _ => None
  end.

(** The switch of the number block: a number, a boolean, or [null]. *)
Definition numberOperator (operator : Operator) (l r : PrimFloat.float)
  : option (PrimFloat.float + bool) :=
  match operator with
  | OpNeq => Some (inr (negb (PrimFloat.eqb l r)))
  | OpMod => Some (inl (remainder l r))
  | OpMul => Some (inl (PrimFloat.mul l r))
  | OpSub => Some (inl (PrimFloat.sub l r))
  | OpAdd => Some (inl (PrimFloat.add l r))
  | OpDiv => Some (inl (PrimFloat.div l r))
  | OpLt => Some (inr (PrimFloat.ltb l r))
  | OpLe => Some (inr (PrimFloat.leb l r))
  | OpGe => Some (inr (PrimFloat.leb r l))
  | OpEq => Some (inr (PrimFloat.eqb l r))
  | OpGt => Some (inr (PrimFloat.ltb r l))
  | OpAnd | OpOr => None
  end.

(** The switch of the text block: a string, a boolean, or [null]. *)
Definition textOperator (operator : Operator) (l r : string)
  : option (string + bool) :=
  match operator with
  | OpNeq => Some (inr (negb (bool_decide (l = r))))
  | OpEq => Some (inr (bool_decide (l = r)))
  | OpAdd => Some (inl (l ++ r))
  | _ => None
  end.

Definition leftPosition (left : LeftOperand) : Position :=
  match left with
  | LeftIdentifier _ position => position
  | LeftLiteral v => positionOf v
  end.

(** Lines 319-328: the left operand is looked up when it is an identifier
    (a cell of type func or internalFunc is refused) and is the literal
    itself otherwise. *)
Definition unwrapLeft (left : LeftOperand) (position : Position) : Exec Value :=
  match left with
  | LeftIdentifier id _ =>
      valueFromMemory <- memory_get id ;;
      if decide (type valueFromMemory = "func"
                 ∨ type valueFromMemory = "internalFunc")
      then throwRuntime position InvalidBinaryOperand
      else ret (value valueFromMemory)
  | LeftLiteral v => ret v
  end.

(** The last test of the method, with the precedence JavaScript gives it:
    [(l.type !== r.type && operator === '!=') || operator === '==']. *)
Definition crossTypeTest (l r : Value) (operator : Operator) : bool :=
  bool_decide (typeOf l ≠ typeOf r) && bool_decide (operator = OpNeq)
  || bool_decide (operator = OpEq).

(** Lines 453-466: reached when no block above has returned. *)
Definition crossType (left : LeftOperand) (operator : Operator)
    (position : Position) (l r : Value) : Exec Value :=
  if crossTypeTest l r operator
  then ret (BooleanLiteral (bool_decide (operator = OpNeq)) position)
  else throwRuntime (leftPosition left) InvalidBinaryExpression.

(** Lines 330-466: the dispatch on the kinds of the two operands. *)
Definition dispatchOperands (left : LeftOperand) (operator : Operator)
    (position : Position) (l r : Value) : Exec Value :=
  match l, r with
  | BooleanLiteral lv lp, BooleanLiteral rv _ =>
      match booleanOperator operator lv rv with
      | None => throwRuntime position InvalidBinaryExpression
      | Some finalValue => ret (BooleanLiteral finalValue lp)
      end
  | NumberLiteral lv lp, NumberLiteral rv _ =>
      match numberOperator operator lv rv with
      | Some (inr finalValue) => ret (BooleanLiteral finalValue lp)
      | Some (inl finalValue) => ret (NumberLiteral finalValue lp)
      | None => crossType left operator position l r
      end
  | TextLiteral lv lp, TextLiteral rv _ =>
      match textOperator operator lv rv with
      | Some (inl finalValue) => ret (TextLiteral finalValue lp)
      | Some (inr finalValue) => ret (BooleanLiteral finalValue lp)
      | None => crossType left operator position l r
      end
  | _, _ => crossType left operator position l r
  end.

Definition executeBinaryExpression (left : LeftOperand) (operator : Operator)
    (right : ExpressionNode) (position : Position) : Exec Value :=
  rightValue <- evalExpressionNode self right ;;
  if decide (typeOf rightValue = TFuncDeclaration
             ∨ typeOf rightValue = TInternalFuncDeclaration)
  then throwRuntime position InvalidBinaryOperand
  else
    leftValueUnwrapped <- unwrapLeft left position ;;
    dispatchOperands left operator position leftValueUnwrapped rightValue.

(** *** [executeAccessorExpression] *)

Definition executeAccessorExpression (expression : ExpressionNode)
    (value : AccessorValue) (position : Position) : Exec Value :=
  expressionValue <- evalExpressionNode self expression ;;
  match value with
  | AccessorFuncCall identifier =>
      liftHost (executeStaticFunction host identifier expressionValue)
  | AccessorField _ => throwRuntimeNoCode position UnknownAttribute
  end.

(** *** [executeFunctionCall] *)

(** The callback of [params.forEach((param, i) => ...)], from index [i]
    on: the argument is evaluated, its type compared with the parameter's,
    and the parameter bound, before the next argument is looked at. *)
Fixpoint forEachParam (params : list ParamNode) (i : nat)
    (args : list ExpressionNode) : Exec unit :=
  match params with
  | [] => ret tt
  | param :: params' =>
      match args !! i with
      | None => throw (Fail_ (InternalError "internal error, index out of bounds"))
      | Some arg =>
          argResult <- evalExpressionNode self arg ;;
          let dataType := valueToDataType host (typeOf argResult) in
          if decide (dataType ≠ param_dataType param)
          then throwRuntimeNoCode (positionOf argResult)
                 (ArgumentTypeMismatch (param_dataType param) dataType)
          else
            memory_set (param_identifier param)
              (mkMemoryValue argument (param_identifier param)
                 (param_dataType param) argResult None) ;;;
            forEachParam params' (S i) args
      end
  end.

(** [executeInternalFunc(fn, this._memory, this._system)]: the routine
    works on the memory and the system of the interpreter. *)
Definition callInternalFunc (fn : Value) : Exec Value :=
  fun this =>
    let '(r, m, sys) :=
      executeInternalFunc host fn (_memory this) (_system this) in
    liftHost r (mkInterpreter m (_state this) sys (_code this)).

(** Lines 249-257: the body of a user function; a [Return] signal is
    caught and gives the returned value, anything else is thrown again.
    A value that is no [FuncDeclaration] has no [body] to iterate. *)
Definition callFuncDeclaration (fn : Value) : Exec Value :=
  tryCatch
    (match bodyOf fn with
     | Some body => evalCodeBlock self body ;;; ret (NothingLiteral None)
     | None => throw (Fail_ (InternalError "TypeError: body is undefined"))
     end)
    (fun ex =>
       match ex with
       | ControlFlowException Return data => ret data
       | _ => throw ex
       end).

Definition executeFunctionCall (id : string)
    (node_params : option (list ExpressionNode)) (position : Position)
  : Exec Value :=
  memoryValue <- memory_get id ;;
  if decide (type memoryValue ≠ "func" ∧ type memoryValue ≠ "internalFunc")
  then throwRuntime position (NotCallable id)
  else if decide (typeOf (value memoryValue) = TNothingLiteral)
  then throwRuntime position CallOnNothing
  else
    let fn := value memoryValue in
    state_push "function" ;;;
    memory_createScope ;;;
    let params := parametersOf fn in
    let args := default [] node_params in
    if decide (length params ≠ length args)
    then throwRuntime position (ArityMismatch (length params) (length args))
    else
      forEachParam params 0 args ;;;
      returnedValue <-
        (if decide (type memoryValue = "internalFunc")
         then callInternalFunc fn
         else callFuncDeclaration fn) ;;
      memory_clearScope ;;;
      state_pop ;;;
      ret returnedValue.

(** *** [executeExpressionNode] *)

Definition executeExpressionNode (node : ExpressionNode) : Exec Value :=
  match node with
  | Expression (Literal v) _ => ret v
  | Expression (FuncCallNode id params position) _ =>
      executeFunctionCall id params position
  | Expression (Identifier id) _ =>
      cell <- memory_get id ;; ret (value cell)
  | Expression (BinaryExpression left_ operator right_ position) _ =>
      executeBinaryExpression left_ operator right_ position
  | Expression (AccessorExpression expression value position) _ =>
      executeAccessorExpression expression value position
  end.

(** *** Statements *)

Definition executeDeclaration (typeOfAssignment : DeclaratorType)
    (id : string) (expression : ExpressionNode)
    (dataType : option DataTypeNode) (isOptional : bool) : Exec unit :=
  value <- evalExpressionNode self expression ;;
  let type :=
    match dataType with
    | Some d => dataType_value d
    | None => valueToDataType host (typeOf value)
    end in
  if isOptional then
    let type :=
      match dataType with
      | Some d => default type (dataType_internalType d)
      | None => type
      end in
    memory_set id (mkMemoryValue typeOfAssignment id "optional" value (Some type))
  else
    memory_set id (mkMemoryValue typeOfAssignment id type value None).

(** The right-hand side of an assignment node is always an expression
    node here, so the guard 'Internal error on assignment' never fires. *)
Definition executeAssignment (id : string) (expression : ExpressionNode)
  : Exec unit :=
  value <- evalExpressionNode self expression ;;
  memory_update id value.

Definition executeIfStatementNode (condition : ExpressionNode)
    (trueExpression : CodeBlockNode) (falseExpression : option CodeBlockNode)
    (position : Position) : Exec unit :=
  value <- evalExpressionNode self condition ;;
  isConditionTrue <-
    match value with
    | BooleanLiteral b _ => ret b
    | NothingLiteral _ => ret false
    | FuncDeclaration _ _ _ | InternalFuncDeclaration _ _ _
    | NumberLiteral _ _ | TextLiteral _ _
    | Vector2Literal _ _ _ | Vector3Literal _ _ _ _ =>
        throwRuntime position NonBooleanCondition
    end ;;
  if (isConditionTrue : bool) then evalCodeBlock self trueExpression
  else
    match falseExpression with
    | Some block => evalCodeBlock self block
    | None => ret tt
    end.

(** [executeStatement] returns [Value | void]. *)
Definition executeStatement (statement : StatementNode)
  : Exec (option Value) :=
  match statement with
  | Statement (Declaration declaratorType id expression dataType isOptional) _ =>
      executeDeclaration declaratorType id expression dataType isOptional ;;;
      ret None
  | Statement (Assignment id expression) _ =>
      executeAssignment id expression ;;; ret None
  | Statement (ExpressionStatement e) _ =>
      v <- evalExpressionNode self e ;; ret (Some v)
  | Statement (ReturnStatement e) _ =>
      v <- evalExpressionNode self e ;; ret (Some v)
  | Statement (IfStatement condition trueExpression falseExpression position) _ =>
      executeIfStatementNode condition trueExpression falseExpression position ;;;
      ret None
  | Statement (ImportStatement _) position =>
      throwRuntime position ImportNotAtTop
  end.

Definition isReturnStatement (statement : StatementNode) : bool :=
  match statement with
  | Statement (ReturnStatement _) _ => true
  | _ => false
  end.

(** The loop of [executeCodeBlock] over [block.body].  The outcome of a
    return statement is always a value. *)
Fixpoint executeStatements (body : list StatementNode) : Exec unit :=
  match body with
  | [] => ret tt
  | statement :: rest =>
      outcome <- executeStatement statement ;;
      if isReturnStatement statement
      then throw (ControlFlowException Return
                    (default (NothingLiteral None) outcome))
      else executeStatements rest
  end.

Definition executeCodeBlock (block : CodeBlockNode) : Exec unit :=
  match block with
  | CodeBlock body => executeStatements body
  end.

(** *** Modules *)

(** The module comes from the host's file loader, lexer and parser; the
    tree they build is executed and then dropped. *)
Definition executeImportNode (path : string) : Exec unit :=
  tree <- liftHost (loadModule host path) ;;
  fun this =>
    let '(r, _, this') := evalModule self tree this in (r, this').

(** The loop of [executeAllTopImports] over [moduleNode.statements]. *)
Fixpoint executeAllTopImports (statements : list StatementNode)
    (importedModules : list string) : Exec (list string) :=
  match statements with
  | [] => ret importedModules
  | Statement (ImportStatement path) _ :: rest =>
      executeImportNode path ;;;
      executeAllTopImports rest (importedModules ++ [path])
  | _ :: _ => ret importedModules
  end.

(** [array.splice(start)]: removes the elements from [start] on and
    returns them; the array keeps the first [start] elements. *)
Definition splice {A} (array : list A) (start : nat) : list A * list A :=
  (take start array, drop start array).

(** The loop of [executeModule] over [statementsToExecute]. *)
Fixpoint executeTopStatements (statementsToExecute : list StatementNode)
  : Exec unit :=
  match statementsToExecute with
  | [] => ret tt
  | statement :: rest =>
      output <- executeStatement statement ;;
      match output with
      | Some v =>
          if decide (typeOf v ≠ TNothingLiteral)
          then system_stdout (convertValueToText host v)
          else ret tt
      | None => ret tt
      end ;;;
      executeTopStatements rest
  end.

(** [executeModule] works on the module object it is given: [splice]
    writes to [moduleNode.statements].  The second component of the
    result is the module object after the call. *)
Definition executeModule (moduleNode : ModuleNode)
  : Interpreter -> Outcome unit * ModuleNode * Interpreter :=
  fun this =>
    match executeAllTopImports (statements moduleNode) [] this with
    | (Ok modulesImported, this1) =>
        let importedModulesCounts := length modulesImported in
        let '(kept, statementsToExecute) :=
          splice (statements moduleNode) importedModulesCounts in
        let '(r, this2) := executeTopStatements statementsToExecute this1 in
        (r, Module_ kept, this2)
    | (Throw ex, this1) => (Throw ex, moduleNode, this1)
    | (OutOfFuel, this1) => (OutOfFuel, moduleNode, this1)
    end.

End Methods.

(** ** Tying the knot *)

(** The evaluator with [fuel] levels of nested calls: every call through
    [self] uses one. *)
Fixpoint evaluator (host : Host) (fuel : nat) : Evaluator :=
  match fuel with
  | 0 =>
      mkEvaluator (fun _ this => (OutOfFuel, this))
                  (fun _ this => (OutOfFuel, this))
                  (fun moduleNode this => (OutOfFuel, moduleNode, this))
  | S fuel' =>
      mkEvaluator (executeExpressionNode host (evaluator host fuel'))
                  (executeCodeBlock host (evaluator host fuel'))
                  (executeModule host (evaluator host fuel'))
  end.

(** [execute(tree, code)]: the memory is cleared, the module is executed, a
    [RuntimeException] goes to [stderr] and anything else thrown is thrown
    again.  ([console.log] and [printMemory] write to the console, which is
    not part of the host facade.) *)
Definition execute (host : Host) (fuel : nat) (tree : ModuleNode)
    (code : option string)
  : Interpreter -> Outcome unit * ModuleNode * Interpreter :=
  fun this =>
    let this0 :=
      mkInterpreter (Memory.clearMemory (_memory this)) (_state this)
                    (_system this) code in
    match evalModule (evaluator host fuel) tree this0 with
    | (Throw (Fail_ (RuntimeError er)), tree', this1) =>
        (Ok tt, tree', snd (system_stderr (exceptionToString host er) this1))
    | r => r
    end.

(** ** A host to run programs on *)

Module Sample.

Definition valueToDataType (t : ValueType) : string :=
  match t with
  | TNumberLiteral => "number"
  | TTextLiteral => "text"
  | TBooleanLiteral => "boolean"
  | TNothingLiteral => "nothing"
  | TVector2Literal => "vector2"
  | TVector3Literal => "vector3"
  | TFuncDeclaration => "func"
  | TInternalFuncDeclaration => "internalFunc"
  end.

Definition convertValueToText (v : Value) : string :=
  match v with
  | TextLiteral s _ => s
  | BooleanLiteral true _ => "true"
  | BooleanLiteral false _ => "false"
  | NothingLiteral _ => "nothing"
  | _ => valueToDataType (typeOf v)
  end.

Definition exceptionToString (e : RuntimeException) : string :=
  match ex_kind e with
  | ImportNotAtTop => "ImportNotAtTop"
  | NonBooleanCondition => "NonBooleanCondition"
  | NotCallable _ => "NotCallable"
  | CallOnNothing => "CallOnNothing"
  | ArityMismatch _ _ => "ArityMismatch"
  | ArgumentTypeMismatch _ _ => "ArgumentTypeMismatch"
  | UnknownAttribute => "UnknownAttribute"
  | InvalidBinaryOperand => "InvalidBinaryOperand"
  | InvalidBinaryExpression => "InvalidBinaryExpression"
  | UndefinedIdentifier _ => "UndefinedIdentifier"
  | RedeclarationError _ => "RedeclarationError"
  | AssignToConstant _ => "AssignToConstant"
  | HostError m => m
  | TypeMismatch => "TypeMismatch"
  | NullToNonOptional => "NullToNonOptional"
  | ReturnOutsideFunction => "ReturnOutsideFunction"
  end.

(** One file can be imported: it declares [greeting]. *)
Definition loadModule (path : string) : HostResult ModuleNode :=
  if decide (path = "lib")
  then Returned (Module_
         [Statement (Declaration constant "greeting"
            (Expression (Literal (TextLiteral "hello" None)) None) None false)
            None])
  else Failed (RuntimeError
         (mkRuntimeException None (HostError "ImportUnsupported") None)).

(** One routine, [quackprint]: it prints its argument [value]. *)
Definition executeInternalFunc (fn : Value) (m : Memory.t) (sys : System)
  : HostResult Value * Memory.t * System :=
  match fn with
  | InternalFuncDeclaration "quackprint" _ _ =>
      match Memory.get m "value" with
      | inr cell =>
          (Returned (NothingLiteral None), m,
           mkSystem (stdout sys ++ [convertValueToText (value cell)])
                    (stderr sys))
      | inl kind =>
          (Failed (RuntimeError (mkRuntimeException None kind None)), m, sys)
      end
  | _ => (Failed (InternalError "unknown routine"), m, sys)
  end.

Definition executeStaticFunction (id : string) (v : Value)
  : HostResult Value :=
  Failed (RuntimeError (mkRuntimeException None UnknownAttribute None)).

Definition host : Host :=
  mkHost valueToDataType convertValueToText exceptionToString loadModule
         executeInternalFunc executeStaticFunction.

(** The same host with internal routines that do nothing. *)
Definition silentHost : Host :=
  mkHost valueToDataType convertValueToText exceptionToString loadModule
         (fun _ m sys => (Returned (NothingLiteral None), m, sys))
         executeStaticFunction.

(** A fresh interpreter: [new Interpreter()]. *)
Definition interpreter : Interpreter :=
  mkInterpreter [∅] [] (mkSystem [] []) None.

(** Abbreviations for writing programs. *)
Definition lit (v : Value) : ExpressionNode := Expression (Literal v) None.
Definition text (s : string) : ExpressionNode := lit (TextLiteral s None).
Definition num (x : PrimFloat.float) : ExpressionNode :=
  lit (NumberLiteral x None).
Definition bool_ (b : bool) : ExpressionNode := lit (BooleanLiteral b None).
Definition var (x : string) : ExpressionNode := Expression (Identifier x) None.
Definition call (f : string) (args : list ExpressionNode) : ExpressionNode :=
  Expression (FuncCallNode f (Some args) None) None.
Definition stmt (b : StatementBody) : StatementNode := Statement b None.
Definition func (params : list ParamNode) (body : list StatementNode)
  : ExpressionNode :=
  lit (FuncDeclaration (Some params) (CodeBlock body) None).

End Sample.

(** ** Notions used in the statements *)

Definition isVector (v : Value) : Prop :=
  typeOf v = TVector2Literal ∨ typeOf v = TVector3Literal.

(** The exception at the end of [executeBinaryExpression]. *)
Definition invalidBinaryExpression (left_ : LeftOperand) (this : Interpreter)
  : Exception :=
  Fail_ (RuntimeError
    (mkRuntimeException (leftPosition left_) InvalidBinaryExpression (_code this))).

(** The cell that [executeDeclaration] builds for the value [v]. *)
Definition declaredCell (host : Host) (declaratorType : DeclaratorType)
    (id : string) (dataType : option DataTypeNode) (isOptional : bool)
    (v : Value) : MemoryValue :=
  let T :=
    match dataType with
    | Some d =>
        if isOptional then default (dataType_value d) (dataType_internalType d)
        else dataType_value d
    | None => valueToDataType host (typeOf v)
    end in
  if isOptional then mkMemoryValue declaratorType id "optional" v (Some T)
  else mkMemoryValue declaratorType id T v None.

(** The interpreter after [this._system.stderr(text)]. *)
Definition afterStderr (text : string) (this : Interpreter) : Interpreter :=
  mkInterpreter (_memory this) (_state this)
    (mkSystem (stdout (_system this)) (stderr (_system this) ++ [text]))
    (_code this).

(** The interpreter as [execute] sets it up before running the module. *)
Definition atStart (code : option string) (this : Interpreter) : Interpreter :=
  mkInterpreter (Memory.clearMemory (_memory this)) (_state this)
                (_system this) code.

(** The leading import statements of a module. *)
Fixpoint leadingImports (statements : list StatementNode) : list StatementNode :=
  match statements with
  | Statement (ImportStatement path) position :: rest =>
      Statement (ImportStatement path) position :: leadingImports rest
  | _ => []
  end.

(** The cell that [executeFunctionCall] binds a parameter to. *)
Definition argumentCell (param : ParamNode) (v : Value) : MemoryValue :=
  mkMemoryValue argument (param_identifier param) (param_dataType param)
    v None.

(** The interpreter at the entry of a call: the State frame and the scope
    are pushed. *)
Definition atCallEntry (this : Interpreter) : Interpreter :=
  mkInterpreter (Memory.createScope (_memory this))
                (State.push (_state this) "function")
                (_system this) (_code this).

Definition withMemory (m : Memory.t) (this : Interpreter) : Interpreter :=
  mkInterpreter m (_state this) (_system this) (_code this).

(** Hoare triples for methods: from a state satisfying [P], the method
    returns [a] in a state satisfying [Q a], or throws [ex] in a state
    satisfying [E (Some ex)]; [E None] is for the model out of fuel. *)
Definition hoare {A} (P : Interpreter -> Prop) (m : Exec A)
    (Q : A -> Interpreter -> Prop)
    (E : option Exception -> Interpreter -> Prop) : Prop :=
  forall this, P this ->
    match m this with
    | (Ok a, this') => Q a this'
    | (Throw ex, this') => E (Some ex) this'
    | (OutOfFuel, this') => E None this'
    end.

(** What is thrown, if anything, is not the [Return] signal. *)
Definition notReturn (ex : option Exception) : Prop :=
  forall data, ex ≠ Some (ControlFlowException Return data).

(** The host's internal routines keep the property [P] of the system. *)
Definition internalFuncsKeep (host : Host) (P : System -> Prop) : Prop :=
  forall fn m sys, P sys -> P (snd (executeInternalFunc host fn m sys)).

(** [m] keeps the property [P] of the system, however it ends ... *)
Definition keeps (P : System -> Prop) {A} (m : Exec A) : Prop :=
  hoare (fun this => P (_system this)) m
        (fun _ this => P (_system this))
        (fun _ this => P (_system this)).

(** ... and moreover does not throw the [Return] signal. *)
Definition keepsQuietly (P : System -> Prop) {A} (m : Exec A) : Prop :=
  hoare (fun this => P (_system this)) m
        (fun _ this => P (_system this))
        (fun ex this => P (_system this) ∧ notReturn ex).

(** The scope stack has depth [d] and the State is [s]. *)
Definition balanced (d : nat) (s : State.t) (this : Interpreter) : Prop :=
  Memory.depth (_memory this) = d ∧ _state this = s.

(** [m] leaves the depth of the scope stack and the State as they were when
    it returns and when it throws the [Return] signal; nothing is said of
    the other exceptions ... *)
Definition releases {A} (m : Exec A) (d : nat) (s : State.t) : Prop :=
  hoare (balanced d s) m (fun _ => balanced d s)
        (fun ex this => ¬ notReturn ex -> balanced d s this).

(** ... and moreover does not throw the [Return] signal. *)
Definition releasesQuietly {A} (m : Exec A) (d : nat) (s : State.t) : Prop :=
  hoare (balanced d s) m (fun _ => balanced d s) (fun ex _ => notReturn ex).

(** The host's internal routines keep the depth of the scope stack. *)
Definition internalFuncsKeepDepth (host : Host) : Prop :=
  forall fn m sys,
    Memory.depth (snd (fst (executeInternalFunc host fn m sys)))
    = Memory.depth m.

(** The result kinds of the switches of [executeBinaryExpression] on two
    operands of the same kind: [None] where no case of the switch of that
    kind matches, and for the kinds that have no switch. *)
Definition operatorTable (kind : ValueType) (operator : Operator)
  : option ValueType :=
  match kind, operator with
  | TBooleanLiteral, (OpNeq | OpAnd | OpEq | OpOr) => Some TBooleanLiteral
  | TNumberLiteral, (OpNeq | OpLt | OpLe | OpGe | OpEq | OpGt) =>
      Some TBooleanLiteral
  | TNumberLiteral, (OpMod | OpMul | OpSub | OpAdd | OpDiv) =>
      Some TNumberLiteral
  | TTextLiteral, (OpNeq | OpEq) => Some TBooleanLiteral
  | TTextLiteral, OpAdd => Some TTextLiteral
  | _, _ => None
  end.

(** The kinds for which [executeBinaryExpression] has a block. *)
Definition hasOperatorBlock (kind : ValueType) : Prop :=
  kind = TBooleanLiteral ∨ kind = TNumberLiteral ∨ kind = TTextLiteral.

(** The exception is a [RuntimeException] with this message. *)
Definition isRuntimeError (kind : ErrorKind) (ex : Exception) : Prop :=
  exists e, ex = Fail_ (RuntimeError e) ∧ ex_kind e = kind.

(** [m] leaves the depth of the scope stack and the State as they were when
    it returns; nothing is said of what it throws. *)
Definition returnsBalanced {A} (m : Exec A) (d : nat) (s : State.t) : Prop :=
  hoare (balanced d s) m (fun _ => balanced d s) (fun _ _ => True).

(** The property [P] of the system does not depend on [stdout]. *)
Definition ignoresStdout (P : System -> Prop) : Prop :=
  forall sys text, P sys -> P (mkSystem (stdout sys ++ [text]) (stderr sys)).

(** ** Properties of the monad, used by the proofs below *)

Lemma bind_Ok {A B} (m : Exec A) (k : A -> Exec B) this a this' :
  m this = (Ok a, this') -> bind m k this = k a this'.
Proof. intros H. unfold bind. now rewrite H. Qed.

Lemma bind_Throw {A B} (m : Exec A) (k : A -> Exec B) this ex this' :
  m this = (Throw ex, this') -> bind m k this = (Throw ex, this').
Proof. intros H. unfold bind. now rewrite H. Qed.

Lemma bind_OutOfFuel {A B} (m : Exec A) (k : A -> Exec B) this this' :
  m this = (OutOfFuel, this') -> bind m k this = (OutOfFuel, this').
Proof. intros H. unfold bind. now rewrite H. Qed.

(** One level of fuel unfolds to the method. *)
Lemma evalExpressionNode_S host fuel :
  evalExpressionNode (evaluator host (S fuel))
  = executeExpressionNode host (evaluator host fuel).
Proof. reflexivity. Qed.

Lemma evalCodeBlock_S host fuel :
  evalCodeBlock (evaluator host (S fuel))
  = executeCodeBlock host (evaluator host fuel).
Proof. reflexivity. Qed.

Lemma evalModule_S host fuel :
  evalModule (evaluator host (S fuel))
  = executeModule host (evaluator host fuel).
Proof. reflexivity. Qed.

(** ** Binary expressions *)

Section BinaryExpressions.

Context (self : Evaluator).

(** Once the right operand has evaluated to a value that is no function
    and the left operand is unwrapped, the result is the dispatch on the
    two values. *)
Lemma executeBinaryExpression_dispatch left_ operator right_ position
      this this1 this2 l r :
  evalExpressionNode self right_ this = (Ok r, this1) ->
  typeOf r ≠ TFuncDeclaration ->
  typeOf r ≠ TInternalFuncDeclaration ->
  unwrapLeft left_ position this1 = (Ok l, this2) ->
  executeBinaryExpression self left_ operator right_ position this
  = dispatchOperands left_ operator position l r this2.
Proof.
  intros Hr Hf Hi Hl. unfold executeBinaryExpression.
  rewrite (bind_Ok _ _ _ _ _ Hr).
  destruct (decide _) as [[?|?]|_]; [done | done |].
  now rewrite (bind_Ok _ _ _ _ _ Hl).
Qed.


End BinaryExpressions.

(** Two vector operands match none of the three blocks. *)
Lemma dispatchOperands_vectors left_ operator position l r :
  isVector l -> isVector r ->
  dispatchOperands left_ operator position l r
  = crossType left_ operator position l r.
Proof. destruct l, r; simpl; intros [?|?] [?|?]; done. Qed.



(** The claim of C5 fails: [Vector2 == Vector3] does not throw, it is
    [BooleanLiteral false] by the cross-type rule. *)
Lemma vector_equality_does_not_throw :
  let l := Vector2Literal PrimFloat.one PrimFloat.two None in
  let r := Vector3Literal PrimFloat.one PrimFloat.two PrimFloat.zero None in
  evalExpressionNode (evaluator Sample.host 2)
    (Expression (BinaryExpression (LeftLiteral l) OpEq (Sample.lit r) (Some 7))
       None)
    Sample.interpreter
  = (Ok (BooleanLiteral false (Some 7)), Sample.interpreter).
Proof. reflexivity. Qed.

(** C5, amended: when both operands of a binary expression are vector
    values, every operator other than [==] and [!=] throws 'Unable to parse
    binary expression' (InvalidBinaryExpression), and so does [!=] on two
    vectors of the same kind; on vectors of different kinds [==] gives
    [BooleanLiteral false] and [!=] gives [BooleanLiteral true]. *)
Theorem executeBinaryExpression_vectors host fuel left_ operator right_
    position this this1 this2 l r :
  evalExpressionNode (evaluator host fuel) right_ this = (Ok r, this1) ->
  unwrapLeft left_ position this1 = (Ok l, this2) ->
  isVector l -> isVector r ->
  let result :=
    executeBinaryExpression (evaluator host fuel) left_ operator right_
      position this in
  (operator ≠ OpEq -> operator ≠ OpNeq ->
   result = (Throw (invalidBinaryExpression left_ this2), this2))
  ∧ (operator = OpNeq -> typeOf l = typeOf r ->
     result = (Throw (invalidBinaryExpression left_ this2), this2))
  ∧ (operator = OpNeq -> typeOf l ≠ typeOf r ->
     result = (Ok (BooleanLiteral true position), this2))
  ∧ (operator = OpEq -> typeOf l ≠ typeOf r ->
     result = (Ok (BooleanLiteral false position), this2)).
Proof.
  intros Hr Hl Vl Vr result.
  assert (Hres : result = crossType left_ operator position l r this2).
  { assert (Hf : typeOf r ≠ TFuncDeclaration)
      by (destruct Vr as [E|E]; rewrite E; done).
    assert (Hi : typeOf r ≠ TInternalFuncDeclaration)
      by (destruct Vr as [E|E]; rewrite E; done).
    subst result.
    rewrite (executeBinaryExpression_dispatch _ _ _ _ _ _ _ _ _ _ Hr Hf Hi Hl).
    now rewrite dispatchOperands_vectors. }
  rewrite Hres. unfold crossType, crossTypeTest. repeat split.
  - intros H1 H2. rewrite (bool_decide_eq_false_2 _ H1).
    rewrite (bool_decide_eq_false_2 _ H2). now rewrite andb_false_r.
  - intros -> E. rewrite bool_decide_eq_false_2 by (intros H; now apply H).
    reflexivity.
  - intros -> E. now rewrite (bool_decide_eq_true_2 _ E).
  - intros -> E. now rewrite (bool_decide_eq_true_2 _ E).
Qed.

Lemma executeBinaryExpression_vectors_witness :
  let this := Sample.interpreter in
  let l := Vector2Literal PrimFloat.one PrimFloat.two None in
  let r := Vector2Literal PrimFloat.two PrimFloat.one None in
  (isVector l ∧ isVector r)
  ∧ executeBinaryExpression (evaluator Sample.host 1)
      (LeftLiteral l) OpAdd (Sample.lit r) None this
    = (Throw (invalidBinaryExpression (LeftLiteral l) this), this).
Proof.
  intros this l r. split; [split; now left|].
  refine (proj1 (executeBinaryExpression_vectors Sample.host 1 (LeftLiteral l)
                   OpAdd (Sample.lit r) None this this this l r _ _ _ _) _ _);
    [reflexivity | reflexivity | now left | now left | done | done].
Defined.

(** What the amended statement leaves out: [==] on two vectors of the same
    kind is [BooleanLiteral false], because the test of the cross-type rule
    reads [(kinds differ && operator is !=) || operator is ==]. *)
Example same_kind_vector_equality :
  let l := Vector2Literal PrimFloat.one PrimFloat.two None in
  evalExpressionNode (evaluator Sample.host 2)
    (Expression (BinaryExpression (LeftLiteral l) OpEq (Sample.lit l) (Some 7))
       None)
    Sample.interpreter
  = (Ok (BooleanLiteral false (Some 7)), Sample.interpreter).
Proof. reflexivity. Qed.

(** ** If-statements *)

(** C7: once the condition has evaluated to [v], the if-statement executes
    the true block when [v] is [BooleanLiteral true]; executes the false
    block, or does nothing when there is none, when [v] is
    [BooleanLiteral false] or [NothingLiteral]; and throws 'Invalid boolean
    expression' (NonBooleanCondition) for a value of any other kind. *)
Theorem executeIfStatementNode_condition host fuel condition trueExpression
    falseExpression position this this1 v :
  evalExpressionNode (evaluator host fuel) condition this = (Ok v, this1) ->
  executeIfStatementNode (evaluator host fuel) condition trueExpression
    falseExpression position this
  = match v with
    | BooleanLiteral true _ =>
        evalCodeBlock (evaluator host fuel) trueExpression this1
    | BooleanLiteral false _ | NothingLiteral _ =>
        match falseExpression with
        | Some block => evalCodeBlock (evaluator host fuel) block this1
        | None => (Ok tt, this1)
        end
    | _ =>
        (Throw (Fail_ (RuntimeError
           (mkRuntimeException position NonBooleanCondition (_code this1)))),
         this1)
    end.
Proof.
  intros Hc. unfold executeIfStatementNode.
  rewrite (bind_Ok _ _ _ _ _ Hc).
  destruct v as [| |[]| | | | |]; try reflexivity;
    unfold bind, ret; simpl; now destruct falseExpression.
Qed.

Lemma executeIfStatementNode_condition_witness :
  let this := Sample.interpreter in
  let one := NumberLiteral PrimFloat.one None in
  evalExpressionNode (evaluator Sample.host 1) (Sample.lit one) this
  = (Ok one, this)
  ∧ executeIfStatementNode (evaluator Sample.host 1)
      (Sample.lit one) (CodeBlock []) None (Some 4) this
    = (Throw (Fail_ (RuntimeError
         (mkRuntimeException (Some 4) NonBooleanCondition None))), this).
Proof.
  intros this one. split; [reflexivity|].
  apply (executeIfStatementNode_condition Sample.host 1 (Sample.lit one)
           (CodeBlock []) None (Some 4) this this one).
  reflexivity.
Defined.

(** ** [execute] *)

(** C8: whatever the module throws, [execute] returns normally after
    passing the text of the exception to [stderr] when it is a
    [RuntimeException], and throws the same exception again otherwise; the
    interpreter is left as it was when the exception was thrown, so the rest
    of the module is not run. *)
Theorem execute_catches_runtime_exceptions host fuel tree code this ex tree'
    this1 :
  evalModule (evaluator host fuel) tree (atStart code this)
  = (Throw ex, tree', this1) ->
  execute host fuel tree code this
  = match ex with
    | Fail_ (RuntimeError er) =>
        (Ok tt, tree', afterStderr (exceptionToString host er) this1)
    | _ => (Throw ex, tree', this1)
    end.
Proof.
  intros H. unfold execute. fold (atStart code this). rewrite H.
  destruct ex as [[er|msg]|[] data]; reflexivity.
Qed.

Lemma execute_catches_runtime_exceptions_witness :
  let tree := Module_ [Sample.stmt (ExpressionStatement (Sample.var "x"))] in
  let ex := Fail_ (RuntimeError
              (mkRuntimeException None (UndefinedIdentifier "x") None)) in
  evalModule (evaluator Sample.host 3) tree (atStart None Sample.interpreter)
  = (Throw ex, Module_ [], Sample.interpreter)
  ∧ execute Sample.host 3 tree None Sample.interpreter
    = (Ok tt, Module_ [],
       afterStderr "UndefinedIdentifier" Sample.interpreter).
Proof.
  intros tree ex. split; [reflexivity|].
  apply (execute_catches_runtime_exceptions Sample.host 3 tree None
           Sample.interpreter ex (Module_ []) Sample.interpreter).
  reflexivity.
Defined.

(** An exception that is no [RuntimeException] leaves [execute]: here the
    [Return] signal of a return statement in a top-level if-branch. *)
Example execute_rethrows_return_signal :
  let tree := Module_ [Sample.stmt
    (IfStatement (Sample.bool_ true)
       (CodeBlock [Sample.stmt (ReturnStatement (Sample.text "x"))])
       None None)] in
  fst (fst (execute Sample.host 4 tree None Sample.interpreter))
  = Throw (ControlFlowException Return (TextLiteral "x" None)).
Proof. reflexivity. Qed.

(** ** Declarations *)

Lemma Memory_get_set m id cell m' :
  Memory.set m id cell = inr m' -> Memory.get m' id = inr cell.
Proof.
  destruct m as [|scope outer]; simpl.
  - intros [= <-]. simpl. now rewrite lookup_singleton_eq.
  - destruct (scope !! id); [done|]. intros [= <-]. simpl.
    now rewrite lookup_insert_eq.
Qed.

(** [Memory.set] fails in one way only. *)
Lemma Memory_set_error m id cell kind :
  Memory.set m id cell = inl kind -> kind = RedeclarationError id.
Proof.
  destruct m as [|scope outer]; simpl; [done|].
  destruct (scope !! id); [|done]. now intros [= <-].
Qed.

Lemma memory_set_Ok id cell this m :
  Memory.set (_memory this) id cell = inr m ->
  memory_set id cell this
  = (Ok tt, mkInterpreter m (_state this) (_system this) (_code this)).
Proof. intros H. unfold memory_set. now rewrite H. Qed.

Lemma executeDeclaration_cell host self declaratorType id expression dataType
    isOptional this this1 v :
  evalExpressionNode self expression this = (Ok v, this1) ->
  executeDeclaration host self declaratorType id expression dataType
    isOptional this
  = memory_set id (declaredCell host declaratorType id dataType isOptional v)
      this1.
Proof.
  intros H. unfold executeDeclaration. rewrite (bind_Ok _ _ _ _ _ H).
  unfold declaredCell. destruct isOptional, dataType; reflexivity.
Qed.

(** Once the expression has a value, a declaration fails in one way only:
    the identifier is already declared in the innermost scope. *)
Lemma executeDeclaration_failure host self declaratorType id expression
    dataType isOptional this this1 v ex this2 :
  evalExpressionNode self expression this = (Ok v, this1) ->
  executeDeclaration host self declaratorType id expression dataType
    isOptional this = (Throw ex, this2) ->
  ex = Fail_ (RuntimeError
         (mkRuntimeException None (RedeclarationError id) None))
  ∧ this2 = this1.
Proof.
  intros He. rewrite (executeDeclaration_cell _ _ _ _ _ _ _ _ _ _ He).
  unfold memory_set.
  destruct (Memory.set _ _ _) as [kind|m] eqn:E; simpl; [|done].
  apply Memory_set_error in E as ->. now intros [= <- <-].
Qed.

(** The claim of C2 fails: a declaration of type number with a text value,
    and a non-optional declaration with the value nothing, both succeed and
    store the value. *)
Lemma executeDeclaration_does_not_check_types :
  let declare dataType v :=
    executeStatement Sample.host (evaluator Sample.host 1)
      (Sample.stmt (Declaration variable "x" (Sample.lit v) dataType false))
      Sample.interpreter in
  let a := TextLiteral "a" None in
  let nothing := NothingLiteral None in
  (fst (declare (Some (mkDataType "number" None)) a) = Ok None
   ∧ Memory.get (_memory (snd (declare (Some (mkDataType "number" None)) a))) "x"
     = inr (mkMemoryValue variable "x" "number" a None))
  ∧ (fst (declare None nothing) = Ok None
     ∧ Memory.get (_memory (snd (declare None nothing))) "x"
       = inr (mkMemoryValue variable "x" "nothing" nothing None)).
Proof. vm_compute. repeat split. Qed.

(** C2, amended: a declaration compares neither the kind of the value with
    the resolved type nor nothing with [isOptional]: whenever the expression
    evaluates to [v] and the identifier is not yet declared in the innermost
    scope, the declaration succeeds and the stored cell holds [v], with the
    resolved type as its type (as its internal type under the type
    optional, when [isOptional]). *)
Theorem executeDeclaration_stores_value host fuel declaratorType id expression
    dataType isOptional this this1 v m :
  let cell := declaredCell host declaratorType id dataType isOptional v in
  evalExpressionNode (evaluator host fuel) expression this = (Ok v, this1) ->
  Memory.set (_memory this1) id cell = inr m ->
  executeDeclaration host (evaluator host fuel) declaratorType id expression
    dataType isOptional this
  = (Ok tt, mkInterpreter m (_state this1) (_system this1) (_code this1))
  ∧ Memory.get m id = inr cell
  ∧ value cell = v.
Proof.
  intros cell He Hs. split; [|split].
  - rewrite (executeDeclaration_cell _ _ _ _ _ _ _ _ _ _ He).
    now apply memory_set_Ok.
  - now apply Memory_get_set with (m := _memory this1).
  - subst cell. unfold declaredCell. now destruct isOptional.
Qed.

Lemma executeDeclaration_stores_value_witness :
  let this := Sample.interpreter in
  let nothing := NothingLiteral None in
  let cell := mkMemoryValue constant "x" "number" nothing None in
  let m := [ {[ "x" := cell ]} ] in
  evalExpressionNode (evaluator Sample.host 1) (Sample.lit nothing) this
  = (Ok nothing, this)
  ∧ executeDeclaration Sample.host (evaluator Sample.host 1) constant "x"
      (Sample.lit nothing) (Some (mkDataType "number" None)) false this
    = (Ok tt, mkInterpreter m [] (mkSystem [] []) None)
  ∧ Memory.get m "x" = inr cell.
Proof.
  intros this nothing cell m. split; [reflexivity|].
  pose proof (executeDeclaration_stores_value Sample.host 1 constant "x"
                (Sample.lit nothing) (Some (mkDataType "number" None)) false
                this this nothing m eq_refl eq_refl) as [H1 [H2 _]].
  split; [exact H1 | exact H2].
Defined.

(** ** Modules *)

Section Modules.

Context (host : Host) (self : Evaluator).

Lemma take_leadingImports (l : list StatementNode) :
  take (length (leadingImports l)) l = leadingImports l.
Proof.
  induction l as [|[[] position] rest IH]; simpl; try reflexivity.
  now rewrite IH.
Qed.

(** When the loop over the imports returns, it has collected one entry per
    leading import. *)
Lemma executeAllTopImports_length l :
  forall acc this modulesImported this',
    executeAllTopImports host self l acc this = (Ok modulesImported, this') ->
    length modulesImported = length acc + length (leadingImports l).
Proof.
  induction l as [|[body position] rest IH]; intros acc this imported this'.
  - simpl. intros [= <- _]. lia.
  - destruct body as [| | | | |path]; simpl; try (intros [= <- _]; lia).
    unfold bind at 1.
    destruct (executeImportNode host self path this) as [[[]| |] this1];
      [|done|done].
    intros H. apply IH in H. rewrite H, length_app. simpl. lia.
Qed.

(** [executeModule] writes to the module it is given: once the imports
    have run, the module keeps its leading imports and nothing else. *)
Lemma executeModule_splices moduleNode this :
  let '(r, moduleNode', this') := executeModule host self moduleNode this in
  (exists modulesImported this1,
      executeAllTopImports host self (statements moduleNode) [] this
      = (Ok modulesImported, this1))
  -> statements moduleNode' = leadingImports (statements moduleNode).
Proof.
  unfold executeModule.
  destruct (executeAllTopImports host self (statements moduleNode) [] this)
    as [[imported| |] this1] eqn:E.
  - unfold splice.
    destruct (executeTopStatements host self _ this1) as [r this2].
    intros _. simpl. apply executeAllTopImports_length in E.
    rewrite E. simpl. apply take_leadingImports.
  - intros (? & ? & [=]).
  - intros (? & ? & [=]).
Qed.

End Modules.

(** C4 fails on the code: running a module of one expression statement
    leaves the module without statements, and running the same module object
    again prints nothing. *)
Theorem executeModule_mutates_the_module :
  let tree := Module_ [Sample.stmt (ExpressionStatement (Sample.text "a"))] in
  let '(r, tree', this') := execute Sample.host 3 tree None Sample.interpreter in
  let '(r2, tree'', this'') := execute Sample.host 3 tree' None this' in
  r = Ok tt
  ∧ stdout (_system this') = ["a"]
  ∧ statements tree' = []
  ∧ statements tree' ≠ statements tree
  ∧ r2 = Ok tt
  ∧ stdout (_system this'') = ["a"].
Proof. vm_compute. repeat split; done. Qed.

(** With a leading import, the import is what stays in the module. *)
Example executeModule_keeps_the_imports :
  let tree := Module_ [Sample.stmt (ImportStatement "lib");
                       Sample.stmt (ExpressionStatement (Sample.var "greeting"))] in
  let '(r, tree', this') := execute Sample.host 4 tree None Sample.interpreter in
  r = Ok tt
  ∧ stdout (_system this') = ["hello"]
  ∧ statements tree' = [Sample.stmt (ImportStatement "lib")].
Proof. vm_compute. repeat split; done. Qed.

(** ** Function calls *)

Section FunctionCalls.

Context (host : Host) (self : Evaluator).

Lemma memory_get_Ok id this cell :
  Memory.get (_memory this) id = inr cell ->
  memory_get id this = (Ok cell, this).
Proof. intros H. unfold memory_get. now rewrite H. Qed.

(** A call with the wrong number of arguments throws after the State
    frame and the scope have been pushed, and leaves both in place. *)
Lemma executeFunctionCall_arity_mismatch id node_params position this cell :
  Memory.get (_memory this) id = inr cell ->
  type cell = "func" ∨ type cell = "internalFunc" ->
  typeOf (value cell) ≠ TNothingLiteral ->
  length (parametersOf (value cell)) ≠ length (default [] node_params) ->
  let r := executeFunctionCall host self id node_params position this in
  fst r = Throw (Fail_ (RuntimeError (mkRuntimeException position
            (ArityMismatch (length (parametersOf (value cell)))
                           (length (default [] node_params)))
            (_code this))))
  ∧ _memory (snd r) = Memory.createScope (_memory this)
  ∧ _state (snd r) = State.push (_state this) "function".
Proof.
  intros Hget Hty Hnot Hlen r. subst r. unfold executeFunctionCall.
  rewrite (bind_Ok _ _ _ _ _ (memory_get_Ok _ _ _ Hget)).
  destruct (decide (type cell ≠ "func" ∧ type cell ≠ "internalFunc"))
    as [[H1 H2]|_]; [destruct Hty; done|].
  destruct (decide (typeOf (value cell) = TNothingLiteral)); [done|].
  unfold bind at 1. simpl. unfold bind at 1. simpl.
  destruct (decide _); [|done]. simpl. done.
Qed.

End FunctionCalls.

(** C1 fails on the code: a call with one argument of a function of two
    parameters throws ArityMismatch and leaves the scope stack one deeper
    and the State one frame higher than before the call; so does a call
    whose body throws. *)
Theorem executeFunctionCall_leaks_on_error :
  let declare id params body :=
    Sample.stmt (Declaration constant id (Sample.func params body) None false) in
  let after s :=
    snd (executeStatement Sample.host (evaluator Sample.host 1) s
           Sample.interpreter) in
  let this_f :=
    after (declare "f" [mkParam "a" "number"; mkParam "b" "number"] []) in
  let this_g :=
    after (declare "g" [] [Sample.stmt (ExpressionStatement (Sample.var "y"))]) in
  let r_f :=
    evalExpressionNode (evaluator Sample.host 1)
      (Sample.call "f" [Sample.num PrimFloat.one]) this_f in
  let r_g :=
    evalExpressionNode (evaluator Sample.host 4) (Sample.call "g" []) this_g in
  (fst r_f = Throw (Fail_ (RuntimeError
                (mkRuntimeException None (ArityMismatch 2 1) None)))
   ∧ Memory.depth (_memory this_f) = 1 ∧ Memory.depth (_memory (snd r_f)) = 2
   ∧ _state this_f = [] ∧ _state (snd r_f) = ["function"])
  ∧ (fst r_g = Throw (Fail_ (RuntimeError
                (mkRuntimeException None (UndefinedIdentifier "y") None)))
     ∧ Memory.depth (_memory this_g) = 1 ∧ Memory.depth (_memory (snd r_g)) = 2
     ∧ _state this_g = [] ∧ _state (snd r_g) = ["function"]).
Proof. vm_compute. repeat split. Qed.

(** ** Arguments *)

Section Arguments.

Context (host : Host) (self : Evaluator).

(** One round of the loop over the parameters. *)
Lemma forEachParam_cons param params i args arg this this1 v m :
  args !! i = Some arg ->
  evalExpressionNode self arg this = (Ok v, this1) ->
  valueToDataType host (typeOf v) = param_dataType param ->
  Memory.set (_memory this1) (param_identifier param) (argumentCell param v)
  = inr m ->
  forEachParam host self (param :: params) i args this
  = forEachParam host self params (S i) args (withMemory m this1).
Proof.
  intros Harg Hv Hty Hset. simpl. rewrite Harg.
  rewrite (bind_Ok _ _ _ _ _ Hv).
  destruct (decide _) as [Hne|_]; [done|].
  fold (argumentCell param v).
  now rewrite (bind_Ok _ _ _ _ _ (memory_set_Ok _ _ _ _ Hset)).
Qed.

(** What the call does up to the loop over the parameters. *)
Lemma executeFunctionCall_entry id node_params position this cell :
  Memory.get (_memory this) id = inr cell ->
  type cell = "func" ∨ type cell = "internalFunc" ->
  typeOf (value cell) ≠ TNothingLiteral ->
  length (parametersOf (value cell)) = length (default [] node_params) ->
  executeFunctionCall host self id node_params position this
  = (forEachParam host self (parametersOf (value cell)) 0
       (default [] node_params) ;;;
     returnedValue <-
       (if decide (type cell = "internalFunc")
        then callInternalFunc host (value cell)
        else callFuncDeclaration self (value cell)) ;;
     memory_clearScope ;;;
     state_pop ;;;
     ret returnedValue) (atCallEntry this).
Proof.
  intros Hget Hty Hnot Hlen. unfold executeFunctionCall.
  rewrite (bind_Ok _ _ _ _ _ (memory_get_Ok _ _ _ Hget)).
  destruct (decide (type cell ≠ "func" ∧ type cell ≠ "internalFunc"))
    as [[H1 H2]|_]; [destruct Hty; done|].
  destruct (decide (typeOf (value cell) = TNothingLiteral)); [done|].
  unfold bind at 1. simpl. unfold bind at 1. simpl.
  destruct (decide _); [done|]. reflexivity.
Qed.

End Arguments.

Lemma evalExpressionNode_Identifier host fuel id position this cell :
  Memory.get (_memory this) id = inr cell ->
  evalExpressionNode (evaluator host (S fuel)) (Expression (Identifier id) position)
    this
  = (Ok (value cell), this).
Proof.
  intros H. simpl. now rewrite (bind_Ok _ _ _ _ _ (memory_get_Ok _ _ _ H)).
Qed.




(** The same call in a program: the caller's [x] is 'outer', the call
    prints 'inner'. *)
Example later_argument_sees_earlier_parameter :
  let tree := Module_ [
    Sample.stmt (Declaration constant "x" (Sample.text "outer") None false);
    Sample.stmt (Declaration constant "f"
      (Sample.func [mkParam "x" "text"; mkParam "y" "text"]
         [Sample.stmt (ReturnStatement (Sample.var "y"))]) None false);
    Sample.stmt (ExpressionStatement
      (Sample.call "f" [Sample.text "inner"; Sample.var "x"]))] in
  let '(r, _, this') := execute Sample.host 5 tree None Sample.interpreter in
  r = Ok tt ∧ stdout (_system this') = ["inner"].
Proof. vm_compute. split; reflexivity. Qed.

(** ** A frame property of expressions and code blocks

    Whatever property of the system (of what has been written to [stdout]
    and [stderr]) the internal routines of the host keep, the evaluation of
    an expression and of a code block keeps; and an expression never throws
    the [Return] signal. *)

Create HintDb frame.

Section Frame.

Context (host : Host) (P : System -> Prop).
Hypothesis host_keeps : internalFuncsKeep host P.

Lemma keepsQuietly_keeps {A} (m : Exec A) : keepsQuietly P m -> keeps P m.
Proof.
  intros H this HP. specialize (H this HP).
  destruct (m this) as [[a|ex|] this']; tauto.
Qed.

Lemma keepsQuietly_ret {A} (a : A) : keepsQuietly P (ret a).
Proof. intros this HP. exact HP. Qed.

Lemma keepsQuietly_bind {A B} (m : Exec A) (k : A -> Exec B) :
  keepsQuietly P m -> (forall a, keepsQuietly P (k a)) -> keepsQuietly P (bind m k).
Proof.
  intros Hm Hk this HP. unfold bind. specialize (Hm this HP).
  destruct (m this) as [[a|ex|] this']; [|exact Hm|exact Hm].
  exact (Hk a this' Hm).
Qed.

Lemma keeps_bind {A B} (m : Exec A) (k : A -> Exec B) :
  keeps P m -> (forall a, keeps P (k a)) -> keeps P (bind m k).
Proof.
  intros Hm Hk this HP. unfold bind. specialize (Hm this HP).
  destruct (m this) as [[a|ex|] this']; [|exact Hm|exact Hm].
  exact (Hk a this' Hm).
Qed.

Lemma keepsQuietly_fail {A} (f : Failure) : keepsQuietly P (@throw A (Fail_ f)).
Proof. intros this HP. split; [exact HP|]. intros data [=]. Qed.

Lemma keeps_throw {A} (ex : Exception) : keeps P (@throw A ex).
Proof. intros this HP. exact HP. Qed.

Lemma keepsQuietly_throwRuntime {A} position kind :
  keepsQuietly P (@throwRuntime A position kind).
Proof. intros this HP. split; [exact HP|]. intros data [=]. Qed.

Lemma keepsQuietly_throwRuntimeNoCode {A} position kind :
  keepsQuietly P (@throwRuntimeNoCode A position kind).
Proof. apply keepsQuietly_fail. Qed.

Lemma keepsQuietly_liftMemory {A} (r : ErrorKind + A) :
  keepsQuietly P (liftMemory r).
Proof.
  destruct r; [apply keepsQuietly_throwRuntimeNoCode|apply keepsQuietly_ret].
Qed.

Lemma keepsQuietly_liftHost {A} (r : HostResult A) : keepsQuietly P (liftHost r).
Proof. destruct r; [apply keepsQuietly_ret|apply keepsQuietly_fail]. Qed.

Lemma keepsQuietly_putMemory m : keepsQuietly P (putMemory m).
Proof. intros this HP. exact HP. Qed.

Lemma keepsQuietly_putState s : keepsQuietly P (putState s).
Proof. intros this HP. exact HP. Qed.

Lemma keepsQuietly_memory_get id : keepsQuietly P (memory_get id).
Proof. intros this HP. exact (keepsQuietly_liftMemory _ this HP). Qed.

Lemma keepsQuietly_memory_set id cell : keepsQuietly P (memory_set id cell).
Proof.
  intros this HP. unfold memory_set.
  apply (keepsQuietly_bind _ _ (keepsQuietly_liftMemory _)
           keepsQuietly_putMemory this HP).
Qed.

Lemma keepsQuietly_memory_update id v : keepsQuietly P (memory_update id v).
Proof.
  intros this HP. unfold memory_update.
  apply (keepsQuietly_bind _ _ (keepsQuietly_liftMemory _)
           keepsQuietly_putMemory this HP).
Qed.

Lemma keepsQuietly_memory_createScope : keepsQuietly P memory_createScope.
Proof. intros this HP. exact HP. Qed.

Lemma keepsQuietly_memory_clearScope : keepsQuietly P memory_clearScope.
Proof. intros this HP. exact HP. Qed.

Lemma keepsQuietly_state_push ctx : keepsQuietly P (state_push ctx).
Proof. intros this HP. exact HP. Qed.

Lemma keepsQuietly_state_pop : keepsQuietly P state_pop.
Proof. intros this HP. exact HP. Qed.

Lemma keepsQuietly_callInternalFunc fn : keepsQuietly P (callInternalFunc host fn).
Proof.
  intros this HP. unfold callInternalFunc.
  pose proof (host_keeps fn (_memory this) (_system this) HP) as H.
  destruct (executeInternalFunc host fn (_memory this) (_system this))
    as [[r m] sys]. simpl in H.
  destruct r as [v|f]; simpl; [exact H|]. split; [exact H|]. intros data [=].
Qed.

Hint Resolve keepsQuietly_ret keepsQuietly_fail keepsQuietly_throwRuntime
  keepsQuietly_throwRuntimeNoCode keepsQuietly_liftHost
  keepsQuietly_memory_get keepsQuietly_memory_set keepsQuietly_memory_update
  keepsQuietly_memory_createScope keepsQuietly_memory_clearScope
  keepsQuietly_state_push keepsQuietly_state_pop
  keepsQuietly_callInternalFunc keeps_throw : frame.

(** Splits the method in the goal along its binds and tests. *)
Ltac frame :=
  repeat first
    [ progress intros
    | solve [eauto with frame]
    | solve [apply keepsQuietly_keeps; eauto with frame]
    | apply keepsQuietly_bind
    | apply keeps_bind
    | match goal with
      | |- context [decide ?Q] => destruct (decide Q)
      | |- keepsQuietly _ (match ?x with _ => _ end) => destruct x
      | |- keeps _ (match ?x with _ => _ end) => destruct x
      end ].

Section Step.

Context (self : Evaluator).
Hypothesis self_expression :
  forall node, keepsQuietly P (evalExpressionNode self node).
Hypothesis self_block : forall block, keeps P (evalCodeBlock self block).

Hint Resolve self_expression self_block : frame.

Lemma keepsQuietly_unwrapLeft left_ position :
  keepsQuietly P (unwrapLeft left_ position).
Proof. unfold unwrapLeft. frame. Qed.

Lemma keepsQuietly_crossType left_ operator position l r :
  keepsQuietly P (crossType left_ operator position l r).
Proof. unfold crossType. destruct (crossTypeTest l r operator); frame. Qed.

Hint Resolve keepsQuietly_unwrapLeft keepsQuietly_crossType : frame.

Lemma keepsQuietly_dispatchOperands left_ operator position l r :
  keepsQuietly P (dispatchOperands left_ operator position l r).
Proof.
  unfold dispatchOperands.
  destruct l, r; try apply keepsQuietly_crossType.
  - destruct (numberOperator _ _ _) as [[|]|]; frame.
  - destruct (textOperator _ _ _) as [[|]|]; frame.
  - destruct (booleanOperator _ _ _); frame.
Qed.

Hint Resolve keepsQuietly_dispatchOperands : frame.

Lemma keepsQuietly_executeBinaryExpression left_ operator right_ position :
  keepsQuietly P
    (executeBinaryExpression self left_ operator right_ position).
Proof. unfold executeBinaryExpression. frame. Qed.

Lemma keepsQuietly_executeAccessorExpression expression value position :
  keepsQuietly P (executeAccessorExpression host self expression value position).
Proof. unfold executeAccessorExpression. frame. Qed.

Lemma keepsQuietly_forEachParam params args :
  forall i, keepsQuietly P (forEachParam host self params i args).
Proof.
  induction params as [|param params IH]; intros i; simpl; [frame|].
  destruct (args !! i); frame.
Qed.

(** The [Return] signal of the body stops at the call. *)
Lemma keepsQuietly_callFuncDeclaration fn :
  keepsQuietly P (callFuncDeclaration self fn).
Proof.
  intros this HP. unfold callFuncDeclaration, tryCatch.
  destruct (bodyOf fn) as [body|].
  - unfold bind. pose proof (self_block body this HP) as H.
    destruct (evalCodeBlock self body this) as [[[]|ex|] this'].
    + exact H.
    + destruct ex as [f|[] data]; simpl; [|exact H].
      split; [exact H|]. intros data [=].
    + split; [exact H|]. intros data [=].
  - simpl. split; [exact HP|]. intros data [=].
Qed.

Hint Resolve keepsQuietly_forEachParam keepsQuietly_callFuncDeclaration
  : frame.

Lemma keepsQuietly_executeFunctionCall id node_params position :
  keepsQuietly P (executeFunctionCall host self id node_params position).
Proof. unfold executeFunctionCall. frame. Qed.

Lemma keepsQuietly_executeExpressionNode node :
  keepsQuietly P (executeExpressionNode host self node).
Proof.
  destruct node as [[] ?]; simpl;
    eauto using keepsQuietly_executeFunctionCall,
      keepsQuietly_executeBinaryExpression,
      keepsQuietly_executeAccessorExpression with frame.
  frame.
Qed.

Lemma keepsQuietly_executeDeclaration declaratorType id expression dataType
    isOptional :
  keepsQuietly P
    (executeDeclaration host self declaratorType id expression dataType
       isOptional).
Proof. unfold executeDeclaration. frame. Qed.

Lemma keepsQuietly_executeAssignment id expression :
  keepsQuietly P (executeAssignment self id expression).
Proof. unfold executeAssignment. frame. Qed.

Lemma keeps_executeIfStatementNode condition trueExpression falseExpression
    position :
  keeps P (executeIfStatementNode self condition trueExpression
           falseExpression position).
Proof.
  unfold executeIfStatementNode. frame.
Qed.

Lemma keeps_executeStatement statement :
  keeps P (executeStatement host self statement).
Proof.
  destruct statement as [[] position]; simpl.
  - apply keeps_bind; [|frame]. apply keepsQuietly_keeps.
    apply keepsQuietly_executeDeclaration.
  - apply keeps_bind; [|frame]. apply keepsQuietly_keeps.
    apply keepsQuietly_executeAssignment.
  - frame.
  - frame.
  - apply keeps_bind; [|frame]. apply keeps_executeIfStatementNode.
  - frame.
Qed.

Lemma keeps_executeStatements body :
  keeps P (executeStatements host self body).
Proof.
  induction body as [|statement rest IH]; simpl; [frame|].
  apply keeps_bind; [apply keeps_executeStatement|].
  intros outcome. destruct (isReturnStatement statement); frame.
Qed.

Lemma keeps_executeCodeBlock block :
  keeps P (executeCodeBlock host self block).
Proof. destruct block. apply keeps_executeStatements. Qed.

End Step.

(** By induction on the fuel. *)
Lemma evaluator_keeps fuel :
  (forall node, keepsQuietly P (evalExpressionNode (evaluator host fuel) node))
  ∧ (forall block, keeps P (evalCodeBlock (evaluator host fuel) block)).
Proof.
  induction fuel as [|fuel [IHe IHb]]; simpl.
  - split; intros ? this HP; simpl; [|exact HP].
    split; [exact HP|]. intros data [=].
  - split.
    + intros node. now apply keepsQuietly_executeExpressionNode.
    + intros block. now apply keeps_executeCodeBlock.
Qed.

End Frame.

(** ** The [Return] signal *)

(** The claim of C3 fails: a return statement at the top level of a module
    is not rejected; [execute] returns normally, writes nothing to [stderr]
    and prints the value. *)
Lemma top_level_return_is_not_rejected :
  let tree := Module_ [Sample.stmt (ReturnStatement (Sample.text "x"))] in
  let '(r, _, this') := execute Sample.host 3 tree None Sample.interpreter in
  r = Ok tt
  ∧ stdout (_system this') = ["x"]
  ∧ stderr (_system this') = [].
Proof. vm_compute. repeat split. Qed.

(** C3, amended: the evaluation of an expression, and so of a function
    call, never throws the [Return] signal: the signal of a return statement
    of the body stops at the call.  A return statement of the module itself
    is not rejected: it is executed as the expression statement of its
    expression is. *)
Theorem return_signal_stops_at_the_call host fuel :
  (forall node this data,
      fst (evalExpressionNode (evaluator host fuel) node this)
      ≠ Throw (ControlFlowException Return data))
  ∧ (forall e position rest,
        executeTopStatements host (evaluator host fuel)
          (Statement (ReturnStatement e) position :: rest)
        = executeTopStatements host (evaluator host fuel)
            (Statement (ExpressionStatement e) position :: rest)).
Proof.
  split; [|reflexivity].
  intros node this data.
  assert (Hhost : internalFuncsKeep host (fun _ => True)) by (intros ? ? ? ?; exact I).
  pose proof (proj1 (evaluator_keeps host (fun _ => True) Hhost fuel) node this I)
    as H.
  destruct (evalExpressionNode (evaluator host fuel) node this)
    as [[v|ex|] this']; simpl; [done| |done].
  destruct H as [_ H]. intros [= ->]. now apply (H data).
Qed.

(** ** What a code block writes to [stdout] *)

Lemma executeStatements_expression host self e position rest this :
  executeStatements host self (Statement (ExpressionStatement e) position :: rest)
    this
  = (evalExpressionNode self e ;;; executeStatements host self rest) this.
Proof.
  simpl. unfold bind.
  destruct (evalExpressionNode self e this) as [[v|ex|] this']; reflexivity.
Qed.

Lemma executeTopStatements_expression host self e position rest this :
  executeTopStatements host self
    (Statement (ExpressionStatement e) position :: rest) this
  = (v <- evalExpressionNode self e ;;
     (if decide (typeOf v ≠ TNothingLiteral)
      then system_stdout (convertValueToText host v)
      else ret tt) ;;;
     executeTopStatements host self rest) this.
Proof.
  simpl. unfold bind.
  destruct (evalExpressionNode self e this) as [[v|ex|] this']; reflexivity.
Qed.

(** C10: a code block writes nothing to [stdout] for the values of its
    statements.  Whatever property of the text written to [stdout] the
    internal routines of the host keep (they are the only writers: with
    routines that do not print, [stdout] is as before), the block keeps; in
    a block the value of an expression statement is dropped and the next
    statement is executed, whereas at the top level of a module it is passed
    to [stdout] when it is not nothing. *)
Theorem executeCodeBlock_prints_no_value host (P : list string -> Prop) fuel
    block this :
  internalFuncsKeep host (fun sys => P (stdout sys)) ->
  P (stdout (_system this)) ->
  P (stdout (_system (snd (evalCodeBlock (evaluator host fuel) block this))))
  ∧ (forall e position rest this0,
        executeStatements host (evaluator host fuel)
          (Statement (ExpressionStatement e) position :: rest) this0
        = (evalExpressionNode (evaluator host fuel) e ;;;
           executeStatements host (evaluator host fuel) rest) this0)
  ∧ (forall e position rest this0,
        executeTopStatements host (evaluator host fuel)
          (Statement (ExpressionStatement e) position :: rest) this0
        = (v <- evalExpressionNode (evaluator host fuel) e ;;
           (if decide (typeOf v ≠ TNothingLiteral)
            then system_stdout (convertValueToText host v)
            else ret tt) ;;;
           executeTopStatements host (evaluator host fuel) rest) this0).
Proof.
  intros Hhost HP. split; [|split].
  - pose proof (proj2 (evaluator_keeps host _ Hhost fuel) block this HP) as H.
    destruct (evalCodeBlock (evaluator host fuel) block this)
      as [[[]|ex|] this']; exact H.
  - intros. apply executeStatements_expression.
  - intros. apply executeTopStatements_expression.
Qed.

Lemma executeCodeBlock_prints_no_value_witness :
  let block := CodeBlock [Sample.stmt (ExpressionStatement (Sample.text "a"));
                          Sample.stmt (ExpressionStatement
                            (Sample.call "quackprint" [Sample.text "b"]))] in
  let quackprint :=
    mkMemoryValue constant "quackprint" "internalFunc"
      (InternalFuncDeclaration "quackprint" (Some [mkParam "value" "text"]) None)
      None in
  let this := withMemory [ {[ "quackprint" := quackprint ]} ] Sample.interpreter in
  internalFuncsKeep Sample.silentHost (fun sys => stdout sys = [])
  ∧ fst (evalCodeBlock (evaluator Sample.silentHost 4) block this) = Ok tt
  ∧ stdout (_system (snd (evalCodeBlock (evaluator Sample.silentHost 4) block
                            this))) = [].
Proof.
  intros block quackprint this.
  assert (Hhost : internalFuncsKeep Sample.silentHost (fun sys => stdout sys = []))
    by (intros fn m sys H; exact H).
  split; [exact Hhost|]. split; [reflexivity|].
  exact (proj1 (executeCodeBlock_prints_no_value Sample.silentHost
                  (fun log => log = []) 4 block this Hhost eq_refl)).
Defined.

(** The same statements at the top level of a module, and in the body of a
    function, with the host whose [quackprint] prints. *)
Example values_are_printed_at_top_level_only :
  let statements :=
    [Sample.stmt (ExpressionStatement (Sample.text "a"));
     Sample.stmt (ExpressionStatement (Sample.text "b"))] in
  let inFunction :=
    Module_ [Sample.stmt (Declaration constant "f" (Sample.func [] statements)
                            None false);
             Sample.stmt (ExpressionStatement (Sample.call "f" []))] in
  stdout (_system (snd (execute Sample.host 5 (Module_ statements) None
                          Sample.interpreter))) = ["a"; "b"]
  ∧ stdout (_system (snd (execute Sample.host 5 inFunction None
                            Sample.interpreter))) = [].
Proof. vm_compute. split; reflexivity. Qed.

(** ** The scope stack across a call

    On the paths on which [executeFunctionCall] reaches its last lines, that
    is when the callee returns or its body throws the [Return] signal, the
    scope and the State frame pushed at the entry are released. *)

Lemma hoare_bind {A B} P (m : Exec A) R (k : A -> Exec B) Q E :
  hoare P m R E -> (forall a, hoare (R a) (k a) Q E) -> hoare P (bind m k) Q E.
Proof.
  intros Hm Hk this HP. unfold bind. specialize (Hm this HP).
  destruct (m this) as [[a|ex|] this']; [|exact Hm|exact Hm].
  exact (Hk a this' Hm).
Qed.

Lemma notReturn_Fail f : notReturn (Some (Fail_ f)).
Proof. intros data [=]. Qed.

Lemma notReturn_None : notReturn None.
Proof. intros data [=]. Qed.

Lemma Memory_set_depth m id cell m' :
  Memory.set m id cell = inr m' -> 1 <= Memory.depth m ->
  Memory.depth m' = Memory.depth m.
Proof.
  destruct m as [|scope outer]; simpl; [lia|].
  destruct (scope !! id); [done|]. now intros [= <-] _.
Qed.

Lemma Memory_update_depth m id v :
  forall m', Memory.update m id v = inr m' -> Memory.depth m' = Memory.depth m.
Proof.
  induction m as [|scope outer IH]; simpl; [done|]. intros m'.
  destruct (scope !! id) as [cell|].
  - destruct (declarationType cell); [done| |]; now intros [= <-].
  - destruct (Memory.update outer id v) as [|outer'] eqn:E; [done|].
    intros [= <-]. simpl. f_equal. now apply IH.
Qed.

Create HintDb releases.

Section Releases.

Context (host : Host).
Hypothesis host_keeps_depth : internalFuncsKeepDepth host.

Lemma releasesQuietly_releases {A} (m : Exec A) d s :
  releasesQuietly m d s -> releases m d s.
Proof.
  intros H this HP. specialize (H this HP).
  destruct (m this) as [[a|ex|] this']; [exact H| |]; intros H'; now elim H'.
Qed.

Lemma releasesQuietly_ret {A} (a : A) d s : releasesQuietly (ret a) d s.
Proof. intros this HP. exact HP. Qed.

Lemma releasesQuietly_bind {A B} (m : Exec A) (k : A -> Exec B) d s :
  releasesQuietly m d s -> (forall a, releasesQuietly (k a) d s) ->
  releasesQuietly (bind m k) d s.
Proof. intros Hm Hk. now apply hoare_bind with (R := fun _ => balanced d s). Qed.

Lemma releases_bind {A B} (m : Exec A) (k : A -> Exec B) d s :
  releases m d s -> (forall a, releases (k a) d s) -> releases (bind m k) d s.
Proof. intros Hm Hk. now apply hoare_bind with (R := fun _ => balanced d s). Qed.

Lemma releasesQuietly_fail {A} (f : Failure) d s :
  releasesQuietly (@throw A (Fail_ f)) d s.
Proof. intros this HP. apply notReturn_Fail. Qed.

Lemma releases_throw {A} (ex : Exception) d s : releases (@throw A ex) d s.
Proof. intros this HP _. exact HP. Qed.

Lemma releasesQuietly_throwRuntime {A} position kind d s :
  releasesQuietly (@throwRuntime A position kind) d s.
Proof. intros this HP. apply notReturn_Fail. Qed.

Lemma releasesQuietly_throwRuntimeNoCode {A} position kind d s :
  releasesQuietly (@throwRuntimeNoCode A position kind) d s.
Proof. apply releasesQuietly_fail. Qed.

Lemma releasesQuietly_liftHost {A} (r : HostResult A) d s :
  releasesQuietly (liftHost r) d s.
Proof. destruct r; [apply releasesQuietly_ret|apply releasesQuietly_fail]. Qed.

Lemma releasesQuietly_memory_get id d s : releasesQuietly (memory_get id) d s.
Proof.
  intros this HP. unfold memory_get.
  destruct (Memory.get (_memory this) id); simpl; [|exact HP].
  apply notReturn_Fail.
Qed.

Lemma releasesQuietly_memory_set id cell d s :
  1 <= d -> releasesQuietly (memory_set id cell) d s.
Proof.
  intros Hd this [HP1 HP2]. unfold memory_set.
  destruct (Memory.set (_memory this) id cell) as [|m'] eqn:E; simpl.
  - apply notReturn_Fail.
  - split; [|exact HP2]. simpl.
    rewrite (Memory_set_depth _ _ _ _ E); [exact HP1|]. now rewrite HP1.
Qed.

Lemma releasesQuietly_memory_update id v d s :
  releasesQuietly (memory_update id v) d s.
Proof.
  intros this [HP1 HP2]. unfold memory_update.
  destruct (Memory.update (_memory this) id v) as [|m'] eqn:E; simpl.
  - apply notReturn_Fail.
  - split; [|exact HP2]. simpl. now rewrite (Memory_update_depth _ _ _ _ E).
Qed.

Lemma releasesQuietly_callInternalFunc fn d s :
  releasesQuietly (callInternalFunc host fn) d s.
Proof.
  intros this [HP1 HP2]. unfold callInternalFunc.
  pose proof (host_keeps_depth fn (_memory this) (_system this)) as H.
  destruct (executeInternalFunc host fn (_memory this) (_system this))
    as [[r m] sys]. simpl in H.
  destruct r as [v|f]; simpl.
  - split; [simpl; lia|exact HP2].
  - apply notReturn_Fail.
Qed.

Hint Resolve releasesQuietly_ret releasesQuietly_fail releases_throw
  releasesQuietly_throwRuntime releasesQuietly_throwRuntimeNoCode
  releasesQuietly_liftHost releasesQuietly_memory_get
  releasesQuietly_memory_set releasesQuietly_memory_update
  releasesQuietly_callInternalFunc : releases.

Ltac releases :=
  repeat first
    [ progress intros
    | solve [eauto with releases]
    | solve [apply releasesQuietly_releases; eauto with releases]
    | apply releasesQuietly_bind
    | apply releases_bind
    | match goal with
      | |- context [decide ?Q] => destruct (decide Q)
      | |- releasesQuietly (match ?x with _ => _ end) _ _ => destruct x
      | |- releases (match ?x with _ => _ end) _ _ => destruct x
      end ].

Section Step.

Context (self : Evaluator).
Hypothesis self_expression :
  forall node d s, 1 <= d ->
    releasesQuietly (evalExpressionNode self node) d s.
Hypothesis self_block :
  forall block d s, 1 <= d -> releases (evalCodeBlock self block) d s.

Hint Resolve self_expression self_block : releases.

Lemma releasesQuietly_unwrapLeft left_ position d s :
  releasesQuietly (unwrapLeft left_ position) d s.
Proof. unfold unwrapLeft. releases. Qed.

Lemma releasesQuietly_crossType left_ operator position l r d s :
  releasesQuietly (crossType left_ operator position l r) d s.
Proof. unfold crossType. destruct (crossTypeTest l r operator); releases. Qed.

Hint Resolve releasesQuietly_unwrapLeft releasesQuietly_crossType : releases.

Lemma releasesQuietly_dispatchOperands left_ operator position l r d s :
  releasesQuietly (dispatchOperands left_ operator position l r) d s.
Proof.
  unfold dispatchOperands.
  destruct l, r; try apply releasesQuietly_crossType.
  - destruct (numberOperator _ _ _) as [[|]|]; releases.
  - destruct (textOperator _ _ _) as [[|]|]; releases.
  - destruct (booleanOperator _ _ _); releases.
Qed.

Hint Resolve releasesQuietly_dispatchOperands : releases.

Lemma releasesQuietly_executeBinaryExpression left_ operator right_ position
    d s :
  1 <= d ->
  releasesQuietly
    (executeBinaryExpression self left_ operator right_ position) d s.
Proof. intros Hd. unfold executeBinaryExpression. releases. Qed.

Lemma releasesQuietly_executeAccessorExpression expression value position
    d s :
  1 <= d ->
  releasesQuietly
    (executeAccessorExpression host self expression value position) d s.
Proof. intros Hd. unfold executeAccessorExpression. releases. Qed.

Lemma releasesQuietly_forEachParam params args d s :
  1 <= d ->
  forall i, releasesQuietly (forEachParam host self params i args) d s.
Proof.
  intros Hd. induction params as [|param params IH]; intros i; simpl;
    [releases|].
  destruct (args !! i); releases.
Qed.

(** The body of a user function: the [Return] signal stops here. *)
Lemma releasesQuietly_callFuncDeclaration fn d s :
  1 <= d -> releasesQuietly (callFuncDeclaration self fn) d s.
Proof.
  intros Hd this HP. unfold callFuncDeclaration, tryCatch.
  destruct (bodyOf fn) as [body|].
  - unfold bind. pose proof (self_block body d s Hd this HP) as H.
    destruct (evalCodeBlock self body this) as [[[]|ex|] this'].
    + exact H.
    + destruct ex as [f|[] data]; simpl; [apply notReturn_Fail|].
      apply H. intros H'. now apply (H' data).
    + apply notReturn_None.
  - apply notReturn_Fail.
Qed.

Hint Resolve releasesQuietly_forEachParam
  releasesQuietly_callFuncDeclaration : releases.

(** From the entry on the call works one scope and one frame up, and
    its last lines bring it back. *)
Lemma executeFunctionCall_body_releases fn (memoryType : string) params args
    position d s :
  hoare (balanced (S d) ("function" :: s))
    (if decide (length params ≠ length args)
     then throwRuntime position (ArityMismatch (length params) (length args))
     else
       forEachParam host self params 0 args ;;;
       returnedValue <-
         (if decide (memoryType = "internalFunc")
          then callInternalFunc host fn
          else callFuncDeclaration self fn) ;;
       memory_clearScope ;;;
       state_pop ;;;
       ret returnedValue)
    (fun _ => balanced d s)
    (fun ex _ => notReturn ex).
Proof.
  destruct (decide _); [intros this HP; apply notReturn_Fail|].
  assert (Hd : 1 <= S d) by lia.
  apply hoare_bind with (R := fun _ => balanced (S d) ("function" :: s));
    [now apply releasesQuietly_forEachParam|intros _].
  apply hoare_bind with (R := fun _ => balanced (S d) ("function" :: s)).
  - destruct (decide _);
      [apply releasesQuietly_callInternalFunc
      |now apply releasesQuietly_callFuncDeclaration].
  - intros returnedValue this [HP1 HP2]. simpl. split; simpl.
    + unfold Memory.depth, Memory.clearScope in *.
      destruct (_memory this); simpl in *; lia.
    + now rewrite HP2.
Qed.

Lemma releasesQuietly_executeFunctionCall id node_params position d s :
  releasesQuietly (executeFunctionCall host self id node_params position)
                  d s.
Proof.
  unfold executeFunctionCall.
  apply releasesQuietly_bind; [releases|]. intros memoryValue.
  destruct (decide _); [releases|]. destruct (decide _); [releases|].
  intros this [HP1 HP2]. unfold bind at 1. simpl. unfold bind at 1. simpl.
  apply (executeFunctionCall_body_releases (value memoryValue)
           (type memoryValue) _ _ position d s).
  split; simpl; [now rewrite HP1|now rewrite HP2].
Qed.

Lemma releasesQuietly_executeExpressionNode node d s :
  1 <= d -> releasesQuietly (executeExpressionNode host self node) d s.
Proof.
  intros Hd. destruct node as [[] ?]; simpl;
    eauto using releasesQuietly_executeFunctionCall,
      releasesQuietly_executeBinaryExpression,
      releasesQuietly_executeAccessorExpression with releases.
  releases.
Qed.

Lemma releasesQuietly_executeDeclaration declaratorType id expression
    dataType isOptional d s :
  1 <= d ->
  releasesQuietly
    (executeDeclaration host self declaratorType id expression dataType
       isOptional) d s.
Proof. intros Hd. unfold executeDeclaration. releases. Qed.

Lemma releasesQuietly_executeAssignment id expression d s :
  1 <= d -> releasesQuietly (executeAssignment self id expression) d s.
Proof. intros Hd. unfold executeAssignment. releases. Qed.

Lemma releases_executeIfStatementNode condition trueExpression
    falseExpression position d s :
  1 <= d ->
  releases (executeIfStatementNode self condition trueExpression
              falseExpression position) d s.
Proof. intros Hd. unfold executeIfStatementNode. releases. Qed.

Lemma releases_executeStatement statement d s :
  1 <= d -> releases (executeStatement host self statement) d s.
Proof.
  intros Hd. destruct statement as [[] position]; simpl.
  - apply releases_bind; [|releases]. apply releasesQuietly_releases.
    now apply releasesQuietly_executeDeclaration.
  - apply releases_bind; [|releases]. apply releasesQuietly_releases.
    now apply releasesQuietly_executeAssignment.
  - releases.
  - releases.
  - apply releases_bind; [|releases].
    now apply releases_executeIfStatementNode.
  - releases.
Qed.

Lemma releases_executeStatements body d s :
  1 <= d -> releases (executeStatements host self body) d s.
Proof.
  intros Hd. induction body as [|statement rest IH]; simpl; [releases|].
  apply releases_bind; [now apply releases_executeStatement|].
  intros outcome. destruct (isReturnStatement statement); releases.
Qed.

Lemma releases_executeCodeBlock block d s :
  1 <= d -> releases (executeCodeBlock host self block) d s.
Proof. intros Hd. destruct block. now apply releases_executeStatements. Qed.

End Step.

Lemma evaluator_releases fuel :
  (forall node d s, 1 <= d ->
      releasesQuietly (evalExpressionNode (evaluator host fuel) node) d s)
  ∧ (forall block d s, 1 <= d ->
        releases (evalCodeBlock (evaluator host fuel) block) d s).
Proof.
  induction fuel as [|fuel [IHe IHb]]; simpl.
  - split; intros ? d s Hd this HP; simpl; [apply notReturn_None|].
    intros H. elim H. apply notReturn_None.
  - split.
    + intros node d s Hd. now apply releasesQuietly_executeExpressionNode.
    + intros block d s Hd. now apply releases_executeCodeBlock.
Qed.

(** A call that returns leaves the scope stack as deep as it was, and the
    State as it was. *)
Lemma executeFunctionCall_releases_on_return fuel id node_params position
      this v this' :
  executeFunctionCall host (evaluator host fuel) id node_params position this
  = (Ok v, this') ->
  Memory.depth (_memory this') = Memory.depth (_memory this)
  ∧ _state this' = _state this.
Proof.
  intros H.
  destruct (evaluator_releases fuel) as [He Hb].
  pose proof (releasesQuietly_executeFunctionCall (evaluator host fuel) He Hb
                id node_params position (Memory.depth (_memory this))
                (_state this) this (conj eq_refl eq_refl)) as Hcall.
  rewrite H in Hcall. exact Hcall.
Qed.

End Releases.

(** Through [execute]: the program of a call with a missing argument is
    reported on [stderr] and leaves its scope and its frame behind; the next
    run clears the memory, and the frame stays on the State. *)
Example execute_leaves_the_frame_after_an_error :
  let tree := Module_ [
    Sample.stmt (Declaration constant "f"
      (Sample.func [mkParam "a" "number"; mkParam "b" "number"] []) None false);
    Sample.stmt (ExpressionStatement
      (Sample.call "f" [Sample.num PrimFloat.one]))] in
  let '(r, _, this') := execute Sample.host 5 tree None Sample.interpreter in
  let '(r2, _, this'') := execute Sample.host 5 (Module_ []) None this' in
  r = Ok tt
  ∧ stderr (_system this') = ["ArityMismatch"]
  ∧ Memory.depth (_memory this') = 2
  ∧ _state this' = ["function"]
  ∧ r2 = Ok tt
  ∧ Memory.depth (_memory this'') = 1
  ∧ _state this'' = ["function"].
Proof. vm_compute. repeat split. Qed.

(** ** More on binary expressions *)

(** X1: the operator table.  When both operands are booleans, both numbers
    or both texts, and the switch of that kind has a case for the operator,
    the expression returns a value of the kind of that case, at the position
    of the left operand; for any other operator it throws 'Unable to parse
    binary expression'.  In particular no operator on two numbers traps. *)
Theorem executeBinaryExpression_operator_table host fuel left_ operator right_
    position this this1 this2 l r :
  evalExpressionNode (evaluator host fuel) right_ this = (Ok r, this1) ->
  unwrapLeft left_ position this1 = (Ok l, this2) ->
  typeOf l = typeOf r ->
  hasOperatorBlock (typeOf l) ->
  match operatorTable (typeOf l) operator with
  | Some kind =>
      exists v,
        executeBinaryExpression (evaluator host fuel) left_ operator right_
          position this = (Ok v, this2)
        ∧ typeOf v = kind ∧ positionOf v = positionOf l
  | None =>
      exists ex,
        executeBinaryExpression (evaluator host fuel) left_ operator right_
          position this = (Throw ex, this2)
        ∧ isRuntimeError InvalidBinaryExpression ex
  end.
Proof.
  intros Hr Hl Hkind Hblock.
  assert (Hf : typeOf r ≠ TFuncDeclaration)
    by (rewrite <- Hkind; destruct Hblock as [E|[E|E]]; rewrite E; done).
  assert (Hi : typeOf r ≠ TInternalFuncDeclaration)
    by (rewrite <- Hkind; destruct Hblock as [E|[E|E]]; rewrite E; done).
  rewrite (executeBinaryExpression_dispatch _ _ _ _ _ _ _ _ _ _ Hr Hf Hi Hl).
  destruct l, r; try done;
    try (destruct Hblock as [E|[E|E]]; discriminate E);
    destruct operator; simpl;
    try (eexists; split; [reflexivity|split; reflexivity]);
    eexists; (split; [reflexivity|]); eexists; split; reflexivity.
Qed.

Lemma executeBinaryExpression_operator_table_witness :
  let this := Sample.interpreter in
  let l := TextLiteral "hi " (Some 3) in
  let r := TextLiteral "ada" (Some 9) in
  hasOperatorBlock (typeOf l)
  ∧ exists v,
      executeBinaryExpression (evaluator Sample.host 1) (LeftLiteral l) OpAdd
        (Sample.lit r) None this = (Ok v, this)
      ∧ typeOf v = TTextLiteral ∧ positionOf v = Some 3.
Proof.
  intros this l r. split; [right; right; reflexivity|].
  exact (executeBinaryExpression_operator_table Sample.host 1 (LeftLiteral l)
           OpAdd (Sample.lit r) None this this this l r eq_refl eq_refl eq_refl
           (or_intror (or_intror eq_refl))).
Defined.

(** X2: two operands of the same kind, when that kind has no block (two
    nothings, two vectors of the same kind): [==] gives [BooleanLiteral
    false], so that [nothing == nothing] is false, and every other
    operator, [!=] included, throws 'Unable to parse binary expression'. *)
Theorem executeBinaryExpression_same_kind_without_block host fuel left_
    operator right_ position this this1 this2 l r :
  evalExpressionNode (evaluator host fuel) right_ this = (Ok r, this1) ->
  typeOf r ≠ TFuncDeclaration ->
  typeOf r ≠ TInternalFuncDeclaration ->
  unwrapLeft left_ position this1 = (Ok l, this2) ->
  typeOf l = typeOf r ->
  ¬ hasOperatorBlock (typeOf l) ->
  executeBinaryExpression (evaluator host fuel) left_ operator right_ position
    this
  = if decide (operator = OpEq)
    then (Ok (BooleanLiteral false position), this2)
    else (Throw (invalidBinaryExpression left_ this2), this2).
Proof.
  intros Hr Hf Hi Hl Hkind Hblock.
  rewrite (executeBinaryExpression_dispatch _ _ _ _ _ _ _ _ _ _ Hr Hf Hi Hl).
  assert (Hd : dispatchOperands left_ operator position l r
               = crossType left_ operator position l r).
  { destruct l, r; try discriminate Hkind; try reflexivity;
      elim Hblock; unfold hasOperatorBlock; simpl; tauto. }
  rewrite Hd. unfold crossType, crossTypeTest.
  rewrite bool_decide_eq_false_2 by (intros H; now apply H).
  destruct operator; reflexivity.
Qed.

Lemma executeBinaryExpression_same_kind_without_block_witness :
  let this := Sample.interpreter in
  let nothing := NothingLiteral None in
  ¬ hasOperatorBlock (typeOf nothing)
  ∧ executeBinaryExpression (evaluator Sample.host 1) (LeftLiteral nothing)
      OpEq (Sample.lit nothing) (Some 2) this
    = (Ok (BooleanLiteral false (Some 2)), this)
  ∧ executeBinaryExpression (evaluator Sample.host 1) (LeftLiteral nothing)
      OpNeq (Sample.lit nothing) (Some 2) this
    = (Throw (invalidBinaryExpression (LeftLiteral nothing) this), this).
Proof.
  intros this nothing.
  assert (Hblock : ¬ hasOperatorBlock (typeOf nothing))
    by (intros [E|[E|E]]; discriminate E).
  split; [exact Hblock|]. split.
  - exact (executeBinaryExpression_same_kind_without_block Sample.host 1
             (LeftLiteral nothing) OpEq (Sample.lit nothing) (Some 2) this this
             this nothing nothing eq_refl ltac:(done) ltac:(done) eq_refl
             eq_refl Hblock).
  - exact (executeBinaryExpression_same_kind_without_block Sample.host 1
             (LeftLiteral nothing) OpNeq (Sample.lit nothing) (Some 2) this
             this this nothing nothing eq_refl ltac:(done) ltac:(done) eq_refl
             eq_refl Hblock).
Defined.

(** X3: a right operand that evaluates to a function is refused with
    'Invalid binary expression' before the left operand is looked at: the
    left identifier may be undeclared, the error is the same and the
    interpreter is as the right operand left it. *)
Theorem executeBinaryExpression_callable_right host fuel left_ operator right_
    position this this1 r :
  evalExpressionNode (evaluator host fuel) right_ this = (Ok r, this1) ->
  typeOf r = TFuncDeclaration ∨ typeOf r = TInternalFuncDeclaration ->
  executeBinaryExpression (evaluator host fuel) left_ operator right_ position
    this
  = (Throw (Fail_ (RuntimeError
       (mkRuntimeException position InvalidBinaryOperand (_code this1)))),
     this1).
Proof.
  intros Hr Hc. unfold executeBinaryExpression.
  rewrite (bind_Ok _ _ _ _ _ Hr). now destruct (decide _).
Qed.

Lemma executeBinaryExpression_callable_right_witness :
  let this := Sample.interpreter in
  let f := FuncDeclaration None (CodeBlock []) None in
  Memory.get (_memory this) "undeclared" = inl (UndefinedIdentifier "undeclared")
  ∧ executeBinaryExpression (evaluator Sample.host 1)
      (LeftIdentifier "undeclared" None) OpEq (Sample.lit f) (Some 5) this
    = (Throw (Fail_ (RuntimeError
         (mkRuntimeException (Some 5) InvalidBinaryOperand None))), this).
Proof.
  intros this f. split; [reflexivity|].
  exact (executeBinaryExpression_callable_right Sample.host 1
           (LeftIdentifier "undeclared" None) OpEq (Sample.lit f) (Some 5) this
           this f eq_refl (or_introl eq_refl)).
Defined.

(** ** More on function calls *)

Lemma executeFunctionCall_not_callable host self id node_params position
    this cell :
  Memory.get (_memory this) id = inr cell ->
  type cell ≠ "func" -> type cell ≠ "internalFunc" ->
  executeFunctionCall host self id node_params position this
  = (Throw (Fail_ (RuntimeError
       (mkRuntimeException position (NotCallable id) (_code this)))), this).
Proof.
  intros Hget H1 H2. unfold executeFunctionCall.
  rewrite (bind_Ok _ _ _ _ _ (memory_get_Ok _ _ _ Hget)).
  destruct (decide _) as [_|H]; [reflexivity|]. elim H. now split.
Qed.

(** X4: a call that is refused before the entry leaves the interpreter as
    it was: nothing is pushed when the identifier is not declared, when its
    cell is not of type func or internalFunc ('Tried to call variable ... as
    a function'), and when the cell holds nothing ('Tried to call 'nothing'
    as a function'). *)
Theorem executeFunctionCall_refused_before_entry host self id node_params
    position this :
  let result := executeFunctionCall host self id node_params position this in
  let thrown kind :=
    (Throw (Fail_ (RuntimeError (mkRuntimeException position kind (_code this)))),
     this) in
  match Memory.get (_memory this) id with
  | inl kind =>
      result
      = (Throw (Fail_ (RuntimeError (mkRuntimeException None kind None))), this)
  | inr cell =>
      (type cell ≠ "func" ∧ type cell ≠ "internalFunc" ->
       result = thrown (NotCallable id))
      ∧ (type cell = "func" ∨ type cell = "internalFunc" ->
         typeOf (value cell) = TNothingLiteral ->
         result = thrown CallOnNothing)
  end.
Proof.
  intros result thrown. subst result thrown. unfold executeFunctionCall.
  destruct (Memory.get (_memory this) id) as [kind|cell] eqn:Hget.
  - unfold bind, memory_get. now rewrite Hget.
  - split.
    + intros [H1 H2]. now apply executeFunctionCall_not_callable with (cell := cell).
    + rewrite (bind_Ok _ _ _ _ _ (memory_get_Ok _ _ _ Hget)).
      intros Hty Hnothing.
      destruct (decide (type cell ≠ "func" ∧ type cell ≠ "internalFunc"))
        as [[H1 H2]|_]; [destruct Hty; done|].
      now destruct (decide _).
Qed.

Lemma executeFunctionCall_refused_before_entry_witness :
  let cell := mkMemoryValue variable "x" "number"
                (NumberLiteral PrimFloat.one None) None in
  let this := withMemory [ {[ "x" := cell ]} ] Sample.interpreter in
  executeFunctionCall Sample.host (evaluator Sample.host 1) "x" (Some [])
    (Some 4) this
  = (Throw (Fail_ (RuntimeError
       (mkRuntimeException (Some 4) (NotCallable "x") None))), this).
Proof.
  intros cell this.
  exact (proj1 (executeFunctionCall_refused_before_entry Sample.host
                  (evaluator Sample.host 1) "x" (Some []) (Some 4) this)
           ltac:(split; done)).
Defined.

(** X5: with a wrong number of arguments the call throws 'Expecting n
    arguments but got m arguments' right after the entry: no argument is
    evaluated, and the interpreter is the one of the entry, with the frame
    and the scope pushed. *)
Theorem executeFunctionCall_arity_mismatch_at_entry host self id node_params
    position this cell :
  Memory.get (_memory this) id = inr cell ->
  type cell = "func" ∨ type cell = "internalFunc" ->
  typeOf (value cell) ≠ TNothingLiteral ->
  length (parametersOf (value cell)) ≠ length (default [] node_params) ->
  executeFunctionCall host self id node_params position this
  = (Throw (Fail_ (RuntimeError (mkRuntimeException position
       (ArityMismatch (length (parametersOf (value cell)))
                      (length (default [] node_params)))
       (_code this)))),
     atCallEntry this).
Proof.
  intros Hget Hty Hnot Hlen. unfold executeFunctionCall.
  rewrite (bind_Ok _ _ _ _ _ (memory_get_Ok _ _ _ Hget)).
  destruct (decide (type cell ≠ "func" ∧ type cell ≠ "internalFunc"))
    as [[H1 H2]|_]; [destruct Hty; done|].
  destruct (decide (typeOf (value cell) = TNothingLiteral)); [done|].
  unfold bind at 1. simpl. unfold bind at 1. simpl.
  destruct (decide _); [|done]. reflexivity.
Qed.

Lemma executeFunctionCall_arity_mismatch_at_entry_witness :
  let fn := FuncDeclaration (Some [mkParam "a" "number"; mkParam "b" "number"])
              (CodeBlock []) None in
  let cell := mkMemoryValue constant "f" "func" fn None in
  let this := withMemory [ {[ "f" := cell ]} ] Sample.interpreter in
  (* the argument would print, were it evaluated *)
  let arg := Sample.call "quackprint" [Sample.text "evaluated"] in
  Memory.get (_memory this) "f" = inr cell
  ∧ executeFunctionCall Sample.host (evaluator Sample.host 3) "f" (Some [arg])
      (Some 1) this
    = (Throw (Fail_ (RuntimeError
         (mkRuntimeException (Some 1) (ArityMismatch 2 1) None))),
       atCallEntry this).
Proof.
  intros fn cell this arg. split; [reflexivity|].
  exact (executeFunctionCall_arity_mismatch_at_entry Sample.host
           (evaluator Sample.host 3) "f" (Some [arg]) (Some 1) this cell eq_refl
           (or_introl eq_refl) ltac:(done) ltac:(done)).
Defined.

(** X6: the arguments are checked one by one: the first one whose type name
    is not the one of its parameter stops the call with 'Expected argument
    of type ... but got ...', an exception that carries the position of the
    value of the argument and no source code; the interpreter is as the
    evaluation of that argument left it. *)
Theorem forEachParam_type_mismatch host self param params i args arg this
    this1 v :
  args !! i = Some arg ->
  evalExpressionNode self arg this = (Ok v, this1) ->
  valueToDataType host (typeOf v) ≠ param_dataType param ->
  forEachParam host self (param :: params) i args this
  = (Throw (Fail_ (RuntimeError (mkRuntimeException (positionOf v)
       (ArgumentTypeMismatch (param_dataType param)
          (valueToDataType host (typeOf v)))
       None))),
     this1).
Proof.
  intros Harg Hv Hty. simpl. rewrite Harg. rewrite (bind_Ok _ _ _ _ _ Hv).
  now destruct (decide _).
Qed.

Lemma forEachParam_type_mismatch_witness :
  let this := Sample.interpreter in
  let v := TextLiteral "one" (Some 8) in
  let later := Sample.var "undeclared" in
  forEachParam Sample.host (evaluator Sample.host 1)
    [mkParam "a" "number"; mkParam "b" "number"] 0 [Sample.lit v; later] this
  = (Throw (Fail_ (RuntimeError (mkRuntimeException (Some 8)
       (ArgumentTypeMismatch "number" "text") None))), this).
Proof.
  intros this v later.
  exact (forEachParam_type_mismatch Sample.host (evaluator Sample.host 1)
           (mkParam "a" "number") [mkParam "b" "number"] 0
           [Sample.lit v; later] (Sample.lit v) this this v eq_refl eq_refl
           ltac:(done)).
Defined.

Lemma Memory_get_createScope m id :
  Memory.get (Memory.createScope m) id = Memory.get m id.
Proof. simpl. now rewrite lookup_empty. Qed.

(** X7: functions have no environment of their own: the body of a user
    function looks identifiers up in the memory of the call, so it reads
    whatever the caller has in scope, the caller's own parameters and
    locals included.  A function without parameters whose body is
    [return y] returns what [y] holds where it is called. *)
Theorem function_body_reads_the_scopes_of_the_caller host fuel f y parameters
    p1 p2 p3 position this cell cell_y :
  Memory.get (_memory this) f = inr cell ->
  type cell = "func" ->
  value cell
  = FuncDeclaration parameters
      (CodeBlock [Statement (ReturnStatement (Expression (Identifier y) p1)) p2])
      p3 ->
  default [] parameters = [] ->
  Memory.get (_memory this) y = inr cell_y ->
  executeFunctionCall host (evaluator host (S (S fuel))) f (Some []) position
    this
  = (Ok (value cell_y), this).
Proof.
  intros Hget Hty Hfn Hparams Hy.
  assert (Hnot : typeOf (value cell) ≠ TNothingLiteral) by now rewrite Hfn.
  assert (Hps : parametersOf (value cell) = []) by now rewrite Hfn.
  rewrite (executeFunctionCall_entry host _ f (Some []) position this cell Hget
             (or_introl Hty) Hnot) by now rewrite Hps.
  rewrite Hps. simpl forEachParam. unfold bind at 1. simpl.
  destruct (decide (type cell = "internalFunc")) as [E|_];
    [rewrite Hty in E; discriminate E|].
  assert (Hbody : callFuncDeclaration (evaluator host (S (S fuel))) (value cell)
                    (atCallEntry this)
                  = (Ok (value cell_y), atCallEntry this)).
  { unfold callFuncDeclaration, tryCatch. rewrite Hfn. simpl.
    unfold bind, memory_get. simpl. rewrite lookup_empty, Hy. reflexivity. }
  rewrite (bind_Ok _ _ _ _ _ Hbody). destruct this. reflexivity.
Qed.

Lemma function_body_reads_the_scopes_of_the_caller_witness :
  let fn := FuncDeclaration None
              (CodeBlock [Sample.stmt (ReturnStatement (Sample.var "y"))]) None in
  let cell := mkMemoryValue constant "f" "func" fn None in
  let cell_y := mkMemoryValue argument "y" "text" (TextLiteral "local" None) None in
  (* [y] is an argument of the caller, in the caller's scope *)
  let this := mkInterpreter [ {[ "y" := cell_y ]}; {[ "f" := cell ]} ]
                ["function"] (mkSystem [] []) None in
  executeFunctionCall Sample.host (evaluator Sample.host 2) "f" (Some []) None
    this
  = (Ok (TextLiteral "local" None), this).
Proof.
  intros fn cell cell_y this.
  exact (function_body_reads_the_scopes_of_the_caller Sample.host 0 "f" "y"
           None None None None None this cell cell_y eq_refl eq_refl eq_refl
           eq_refl eq_refl).
Defined.

(** X8: a function declared optional cannot be called.  An optional
    declaration stores its cell under the type optional, and a call accepts
    the types func and internalFunc only: once the declaration has
    succeeded, every call of the identifier throws 'Tried to call variable
    ... as a function', whatever the value is. *)
Theorem optional_function_is_not_callable host self declaratorType id
    expression dataType this this1 v m node_params position :
  evalExpressionNode self expression this = (Ok v, this1) ->
  Memory.set (_memory this1) id (declaredCell host declaratorType id dataType true v)
  = inr m ->
  executeDeclaration host self declaratorType id expression dataType true this
  = (Ok tt, withMemory m this1)
  ∧ executeFunctionCall host self id node_params position (withMemory m this1)
    = (Throw (Fail_ (RuntimeError
         (mkRuntimeException position (NotCallable id) (_code this1)))),
       withMemory m this1).
Proof.
  intros He Hset. split.
  - rewrite (executeDeclaration_cell _ _ _ _ _ _ _ _ _ _ He).
    exact (memory_set_Ok _ _ _ _ Hset).
  - exact (executeFunctionCall_not_callable host self id node_params position
             (withMemory m this1) _ (Memory_get_set _ _ _ _ Hset)
             ltac:(done) ltac:(done)).
Qed.

Lemma optional_function_is_not_callable_witness :
  let this := Sample.interpreter in
  let fn := FuncDeclaration None (CodeBlock []) None in
  let cell := mkMemoryValue constant "f" "optional" fn (Some "func") in
  let m := [ {[ "f" := cell ]} ] in
  executeDeclaration Sample.host (evaluator Sample.host 1) constant "f"
    (Sample.lit fn) (Some (mkDataType "optional" (Some "func"))) true this
  = (Ok tt, withMemory m this)
  ∧ executeFunctionCall Sample.host (evaluator Sample.host 1) "f" (Some [])
      (Some 2) (withMemory m this)
    = (Throw (Fail_ (RuntimeError
         (mkRuntimeException (Some 2) (NotCallable "f") None))),
       withMemory m this).
Proof.
  intros this fn cell m.
  exact (optional_function_is_not_callable Sample.host
           (evaluator Sample.host 1) constant "f" (Sample.lit fn)
           (Some (mkDataType "optional" (Some "func"))) this this fn m
           (Some []) (Some 2) eq_refl eq_refl).
Defined.

(** ** More on code blocks *)

Lemma executeStatements_app host self pre post this this1 :
  executeStatements host self pre this = (Ok tt, this1) ->
  executeStatements host self (pre ++ post) this
  = executeStatements host self post this1.
Proof.
  revert this. induction pre as [|statement pre IH]; intros this; simpl.
  - now intros [= <-].
  - unfold bind.
    destruct (executeStatement host self statement this) as [[outcome|ex|] this0];
      [|done|done].
    destruct (isReturnStatement statement); [done|]. apply IH.
Qed.

(** X9: a return statement ends its block: once the statements before it
    have run and its expression has the value [v], the block throws the
    [Return] signal with [v]; the statements after it are never executed,
    whatever they are. *)
Theorem executeCodeBlock_stops_at_return host self pre e position post this
    this1 this2 v :
  executeStatements host self pre this = (Ok tt, this1) ->
  evalExpressionNode self e this1 = (Ok v, this2) ->
  executeCodeBlock host self
    (CodeBlock (pre ++ Statement (ReturnStatement e) position :: post)) this
  = (Throw (ControlFlowException Return v), this2).
Proof.
  intros Hpre He. simpl. rewrite (executeStatements_app _ _ _ _ _ _ Hpre).
  simpl. unfold bind. now rewrite He.
Qed.

Lemma executeCodeBlock_stops_at_return_witness :
  let this := Sample.interpreter in
  let pre := [Sample.stmt (ExpressionStatement (Sample.text "a"))] in
  let post := [Sample.stmt (ExpressionStatement (Sample.var "undeclared"))] in
  executeCodeBlock Sample.host (evaluator Sample.host 1)
    (CodeBlock (pre ++ Sample.stmt (ReturnStatement (Sample.text "b")) :: post))
    this
  = (Throw (ControlFlowException Return (TextLiteral "b" None)), this).
Proof.
  intros this pre post.
  exact (executeCodeBlock_stops_at_return Sample.host (evaluator Sample.host 1)
           pre (Sample.text "b") None post this this this
           (TextLiteral "b" None) eq_refl eq_refl).
Defined.

(** X10: a return statement in an if-branch returns from the function.  When
    the body of a user function starts with an if-statement whose condition
    is true and whose true block starts with [return e], the function
    returns the value of [e]: the [Return] signal crosses the if-statement
    and the rest of the body, and is caught by the call. *)
Theorem callFuncDeclaration_returns_from_if_branch host fuel parameters
    condition e falseExpression rest_of_branch rest_of_body p1 p2 p3 p4 pc
    this this1 this2 v :
  let body :=
    CodeBlock
      (Statement
         (IfStatement condition
            (CodeBlock (Statement (ReturnStatement e) p1 :: rest_of_branch))
            falseExpression p2) p3
       :: rest_of_body) in
  evalExpressionNode (evaluator host (S fuel)) condition this
  = (Ok (BooleanLiteral true pc), this1) ->
  evalExpressionNode (evaluator host fuel) e this1 = (Ok v, this2) ->
  callFuncDeclaration (evaluator host (S (S fuel)))
    (FuncDeclaration parameters body p4) this
  = (Ok v, this2).
Proof.
  intros body Hc He.
  assert (Hif : executeIfStatementNode (evaluator host (S fuel)) condition
                  (CodeBlock (Statement (ReturnStatement e) p1 :: rest_of_branch))
                  falseExpression p2 this
                = (Throw (ControlFlowException Return v), this2)).
  { unfold executeIfStatementNode. rewrite (bind_Ok _ _ _ _ _ Hc).
    unfold bind at 1. cbn [ret]. rewrite evalCodeBlock_S.
    cbn [executeCodeBlock executeStatements executeStatement isReturnStatement].
    unfold bind. now rewrite He. }
  unfold callFuncDeclaration, tryCatch. cbn [bodyOf]. subst body.
  rewrite evalCodeBlock_S.
  cbn [executeCodeBlock executeStatements executeStatement isReturnStatement].
  unfold bind. now rewrite Hif.
Qed.

Lemma callFuncDeclaration_returns_from_if_branch_witness :
  let this := Sample.interpreter in
  let body :=
    CodeBlock
      [Sample.stmt
         (IfStatement (Sample.bool_ true)
            (CodeBlock [Sample.stmt (ReturnStatement (Sample.text "early"))])
            None None);
       Sample.stmt (ReturnStatement (Sample.text "late"))] in
  callFuncDeclaration (evaluator Sample.host 3) (FuncDeclaration None body None)
    this
  = (Ok (TextLiteral "early" None), this).
Proof.
  intros this body.
  exact (callFuncDeclaration_returns_from_if_branch Sample.host 1 None
           (Sample.bool_ true) (Sample.text "early") None [] _ None None None
           None None this this this (TextLiteral "early" None) eq_refl eq_refl).
Defined.

(** ** Accessors *)

(** X11: only method calls are implemented on values: an accessor that is
    no function call never returns a value.  It throws whatever its
    receiver throws, from the interpreter the receiver left; and once its
    receiver has a value it throws 'Attribute ... is not part ...', an
    exception without source code, and the static functions are not
    consulted. *)
Theorem executeAccessorExpression_field host self expression name position
    this :
  (forall v this', executeAccessorExpression host self expression
                     (AccessorField name) position this ≠ (Ok v, this'))
  ∧ (forall ex this1,
        evalExpressionNode self expression this = (Throw ex, this1) ->
        executeAccessorExpression host self expression (AccessorField name)
          position this
        = (Throw ex, this1))
  ∧ (forall v this1,
        evalExpressionNode self expression this = (Ok v, this1) ->
        executeAccessorExpression host self expression (AccessorField name)
          position this
        = (Throw (Fail_ (RuntimeError
             (mkRuntimeException position UnknownAttribute None))), this1)).
Proof.
  unfold executeAccessorExpression, bind. split; [|split].
  - intros v this'.
    destruct (evalExpressionNode self expression this) as [[v0|ex|] this0]; done.
  - intros ex this1 ->. reflexivity.
  - intros v this1 ->. reflexivity.
Qed.

Lemma executeAccessorExpression_field_witness :
  let this := Sample.interpreter in
  executeAccessorExpression Sample.host (evaluator Sample.host 1)
    (Sample.text "abc") (AccessorField "length") (Some 6) this
  = (Throw (Fail_ (RuntimeError
       (mkRuntimeException (Some 6) UnknownAttribute None))), this)
  ∧ executeAccessorExpression Sample.host (evaluator Sample.host 1)
      (Sample.var "undeclared") (AccessorField "length") (Some 6) this
    = (Throw (Fail_ (RuntimeError
         (mkRuntimeException None (UndefinedIdentifier "undeclared") None))),
       this).
Proof.
  intros this. split.
  - exact (proj2 (proj2 (executeAccessorExpression_field Sample.host
                    (evaluator Sample.host 1) (Sample.text "abc") "length"
                    (Some 6) this)) (TextLiteral "abc" None) this eq_refl).
  - exact (proj1 (proj2 (executeAccessorExpression_field Sample.host
                    (evaluator Sample.host 1) (Sample.var "undeclared")
                    "length" (Some 6) this)) _ this eq_refl).
Defined.

(** ** Assignments *)

Lemma Memory_update_get m id v :
  forall m', Memory.update m id v = inr m' ->
  exists cell,
    Memory.get m id = inr cell
    ∧ declarationType cell ≠ constant
    ∧ Memory.get m' id
      = inr (mkMemoryValue (declarationType cell) (identifier cell) (type cell)
               v (internalType cell)).
Proof.
  induction m as [|scope outer IH]; simpl; [done|]. intros m'.
  destruct (scope !! id) as [cell|] eqn:E.
  - destruct (declarationType cell) eqn:D; [done| |]; intros [= <-];
      exists cell; simpl; rewrite lookup_insert_eq, D; done.
  - destruct (Memory.update outer id v) as [|outer'] eqn:U; [done|].
    intros [= <-]. destruct (IH outer' eq_refl) as (cell & H1 & H2 & H3).
    exists cell. simpl. now rewrite E.
Qed.

Lemma Memory_update_constant m id v cell :
  Memory.get m id = inr cell -> declarationType cell = constant ->
  Memory.update m id v = inl (AssignToConstant id).
Proof.
  induction m as [|scope outer IH]; simpl; [done|].
  destruct (scope !! id) as [cell'|].
  - intros [= ->] ->. reflexivity.
  - intros H1 H2. now rewrite (IH H1 H2).
Qed.

(** X12: an assignment is read back.  Once the right-hand side has the
    value [v] and the update of the memory succeeds, the assignment returns,
    only the memory has changed, and the identifier evaluates to [v]; its
    cell keeps the declaration type and the type it had, with which [v] is
    not compared. *)
Theorem executeAssignment_is_read_back host fuel fuel' id expression position
    this this1 v m :
  evalExpressionNode (evaluator host fuel) expression this = (Ok v, this1) ->
  Memory.update (_memory this1) id v = inr m ->
  executeAssignment (evaluator host fuel) id expression this
  = (Ok tt, withMemory m this1)
  ∧ evalExpressionNode (evaluator host (S fuel'))
      (Expression (Identifier id) position) (withMemory m this1)
    = (Ok v, withMemory m this1)
  ∧ exists cell,
      Memory.get (_memory this1) id = inr cell
      ∧ Memory.get m id
        = inr (mkMemoryValue (declarationType cell) (identifier cell)
                 (type cell) v (internalType cell)).
Proof.
  intros He Hup.
  destruct (Memory_update_get _ _ _ _ Hup) as (cell & Hget & _ & Hget').
  split; [|split].
  - unfold executeAssignment. rewrite (bind_Ok _ _ _ _ _ He).
    unfold memory_update. now rewrite Hup.
  - now rewrite (evalExpressionNode_Identifier host fuel' id position
                   (withMemory m this1) _ Hget').
  - now exists cell.
Qed.

Lemma executeAssignment_is_read_back_witness :
  let cell := mkMemoryValue variable "x" "number"
                (NumberLiteral PrimFloat.one None) None in
  let this := withMemory [ {[ "x" := cell ]} ] Sample.interpreter in
  let v := TextLiteral "a" None in
  let m := [ {[ "x" := mkMemoryValue variable "x" "number" v None ]} ] in
  executeAssignment (evaluator Sample.host 1) "x" (Sample.lit v) this
  = (Ok tt, withMemory m this)
  ∧ evalExpressionNode (evaluator Sample.host 1) (Sample.var "x")
      (withMemory m this)
    = (Ok v, withMemory m this).
Proof.
  intros cell this v m.
  pose proof (executeAssignment_is_read_back Sample.host 1 0 "x" (Sample.lit v)
                None this this v m eq_refl eq_refl) as (H1 & H2 & _).
  split; [exact H1|exact H2].
Defined.

(** X13: a constant is never assigned.  When the identifier resolves to a
    cell declared constant, the assignment throws after the right-hand side
    has been evaluated, and the memory is the one the right-hand side left:
    the identifier still resolves to the same cell. *)
Theorem executeAssignment_to_constant host fuel id expression this this1 v
    cell :
  evalExpressionNode (evaluator host fuel) expression this = (Ok v, this1) ->
  Memory.get (_memory this1) id = inr cell ->
  declarationType cell = constant ->
  executeAssignment (evaluator host fuel) id expression this
  = (Throw (Fail_ (RuntimeError
       (mkRuntimeException None (AssignToConstant id) None))), this1).
Proof.
  intros He Hget Hc. unfold executeAssignment. rewrite (bind_Ok _ _ _ _ _ He).
  unfold memory_update. now rewrite (Memory_update_constant _ _ _ _ Hget Hc).
Qed.

Lemma executeAssignment_to_constant_witness :
  let cell := mkMemoryValue constant "x" "number"
                (NumberLiteral PrimFloat.one None) None in
  let this := withMemory [ {[ "x" := cell ]} ] Sample.interpreter in
  executeAssignment (evaluator Sample.host 1) "x" (Sample.num PrimFloat.two) this
  = (Throw (Fail_ (RuntimeError
       (mkRuntimeException None (AssignToConstant "x") None))), this).
Proof.
  intros cell this.
  exact (executeAssignment_to_constant Sample.host 1 "x"
           (Sample.num PrimFloat.two) this this (NumberLiteral PrimFloat.two None)
           cell eq_refl eq_refl eq_refl).
Defined.

(** ** More on modules *)

Lemma executeTopStatements_app host self pre post this this1 :
  executeTopStatements host self pre this = (Ok tt, this1) ->
  executeTopStatements host self (pre ++ post) this
  = executeTopStatements host self post this1.
Proof.
  revert this. induction pre as [|statement pre IH]; intros this; simpl.
  - now intros [= <-].
  - unfold bind.
    destruct (executeStatement host self statement this)
      as [[output|ex|] this0]; [|done|done].
    destruct output as [v|]; [destruct (decide _)|]; simpl; apply IH.
Qed.

(** X14: what [executeModule] leaves of the module it is given.  When the
    loop over the leading imports returns, the module keeps exactly its
    leading import statements, whether the other statements then run to
    the end or throw; when an import throws, the module is as it was. *)
Theorem executeModule_keeps_its_leading_imports host self moduleNode this :
  let after := snd (fst (executeModule host self moduleNode this)) in
  match fst (executeAllTopImports host self (statements moduleNode) [] this) with
  | Ok _ => statements after = leadingImports (statements moduleNode)
  | _ => after = moduleNode
  end.
Proof.
  unfold executeModule.
  destruct (executeAllTopImports host self (statements moduleNode) [] this)
    as [[imported|ex|] this1] eqn:E; simpl; [|reflexivity|reflexivity].
  unfold splice.
  destruct (executeTopStatements host self _ this1) as [r this2]. simpl.
  apply executeAllTopImports_length in E. rewrite E. simpl.
  apply take_leadingImports.
Qed.

(** X15: an import statement that is not in the leading run is never
    performed.  In a module that starts with a statement that is no import,
    the statements before a later import statement are executed; then
    'Import statements must be at the top of the file' is thrown with the
    position of that statement, the file is not loaded, and the module is
    left without statements. *)
Theorem executeModule_import_not_at_top host self first pre path position
    post this this1 :
  leadingImports [first] = [] ->
  executeTopStatements host self (first :: pre) this = (Ok tt, this1) ->
  executeModule host self
    (Module_ (first :: pre ++ Statement (ImportStatement path) position :: post))
    this
  = (Throw (Fail_ (RuntimeError
       (mkRuntimeException position ImportNotAtTop (_code this1)))),
     Module_ [], this1).
Proof.
  intros Hfirst Hpre. unfold executeModule. cbn [statements].
  assert (Himports :
    executeAllTopImports host self
      (first :: pre ++ Statement (ImportStatement path) position :: post) []
      this = (Ok [], this)).
  { destruct first as [[] p]; try reflexivity. discriminate Hfirst. }
  rewrite Himports. cbn [length splice take drop].
  change (first :: pre ++ Statement (ImportStatement path) position :: post)
    with ((first :: pre) ++ Statement (ImportStatement path) position :: post)%list.
  rewrite (executeTopStatements_app _ _ _ _ _ _ Hpre). reflexivity.
Qed.

Lemma executeModule_import_not_at_top_witness :
  let first := Sample.stmt (ExpressionStatement (Sample.text "a")) in
  let tree :=
    Module_ (first :: [] ++ Statement (ImportStatement "lib") (Some 2) :: []) in
  executeModule Sample.host (evaluator Sample.host 1) tree Sample.interpreter
  = (Throw (Fail_ (RuntimeError
       (mkRuntimeException (Some 2) ImportNotAtTop None))),
     Module_ [],
     mkInterpreter [∅] [] (mkSystem ["a"] []) None).
Proof.
  intros first tree.
  exact (executeModule_import_not_at_top Sample.host (evaluator Sample.host 1)
           first [] "lib" (Some 2) [] Sample.interpreter _ eq_refl eq_refl).
Defined.

(** X16: an import that fails stops the importer before any of its own
    statements.  When the file cannot be loaded, lexed or parsed, and when
    the imported module throws, [executeModule] throws the same exception,
    runs no statement of the module and leaves the module as it was. *)
Theorem executeModule_failing_import host self path position rest this :
  let moduleNode := Module_ (Statement (ImportStatement path) position :: rest) in
  match loadModule host path with
  | Failed f =>
      executeModule host self moduleNode this = (Throw (Fail_ f), moduleNode, this)
  | Returned tree =>
      forall ex tree' this1,
        evalModule self tree this = (Throw ex, tree', this1) ->
        executeModule host self moduleNode this = (Throw ex, moduleNode, this1)
  end.
Proof.
  intros moduleNode. unfold executeModule. cbn [statements moduleNode].
  cbn [executeAllTopImports]. unfold executeImportNode.
  destruct (loadModule host path) as [tree|f]; cbn [liftHost].
  - intros ex tree' this1 H. unfold bind, ret. now rewrite H.
  - reflexivity.
Qed.

Lemma executeModule_failing_import_witness :
  let tree := Module_ [Statement (ImportStatement "missing") None;
                       Sample.stmt (ExpressionStatement (Sample.text "a"))] in
  executeModule Sample.host (evaluator Sample.host 1) tree Sample.interpreter
  = (Throw (Fail_ (RuntimeError
       (mkRuntimeException None (HostError "ImportUnsupported") None))),
     tree, Sample.interpreter).
Proof.
  intros tree.
  exact (executeModule_failing_import Sample.host (evaluator Sample.host 1)
           "missing" None
           [Sample.stmt (ExpressionStatement (Sample.text "a"))]
           Sample.interpreter).
Defined.

(** ** [stderr] *)

Lemma keeps_snd P {A} (m : Exec A) this :
  keeps P m -> P (_system this) -> P (_system (snd (m this))).
Proof.
  intros H HP. specialize (H this HP).
  destruct (m this) as [[a|ex|] this']; exact H.
Qed.

Section ModuleFrame.

Context (host : Host) (P : System -> Prop).
Hypothesis host_keeps : internalFuncsKeep host P.
Hypothesis P_ignores_stdout : ignoresStdout P.

Lemma keeps_system_stdout text : keeps P (system_stdout text).
Proof. intros this HP. simpl. now apply P_ignores_stdout. Qed.

Section Step.

Context (self : Evaluator).
Hypothesis self_expression :
  forall node, keepsQuietly P (evalExpressionNode self node).
Hypothesis self_block : forall block, keeps P (evalCodeBlock self block).
Hypothesis self_module :
  forall tree this,
    P (_system this) -> P (_system (snd (evalModule self tree this))).

Lemma keeps_executeTopStatements statementsToExecute :
  keeps P (executeTopStatements host self statementsToExecute).
Proof.
  induction statementsToExecute as [|statement rest IH]; simpl;
    [apply keeps_throw || (intros this HP; exact HP)|].
  apply keeps_bind; [now apply keeps_executeStatement|].
  intros output. apply keeps_bind; [|intros _; exact IH].
  destruct output as [v|]; [destruct (decide _)|];
    try apply keeps_system_stdout; intros this HP; exact HP.
Qed.

Lemma keeps_executeImportNode path : keeps P (executeImportNode host self path).
Proof.
  unfold executeImportNode. apply keeps_bind.
  - apply keepsQuietly_keeps, keepsQuietly_liftHost.
  - intros tree this HP. pose proof (self_module tree this HP) as H.
    destruct (evalModule self tree this) as [[r tree'] this']. simpl in *.
    destruct r; exact H.
Qed.

Lemma keeps_executeAllTopImports l :
  forall importedModules,
    keeps P (executeAllTopImports host self l importedModules).
Proof.
  induction l as [|[body position] rest IH]; intros importedModules; simpl.
  - intros this HP. exact HP.
  - destruct body; try (intros this HP; exact HP).
    apply keeps_bind; [apply keeps_executeImportNode|]. intros _. apply IH.
Qed.

Lemma executeModule_keeps moduleNode this :
  P (_system this) ->
  P (_system (snd (executeModule host self moduleNode this))).
Proof.
  intros HP. unfold executeModule.
  pose proof (keeps_executeAllTopImports (statements moduleNode) [] this HP) as H.
  destruct (executeAllTopImports host self (statements moduleNode) [] this)
    as [[imported|ex|] this1]; [|exact H|exact H].
  unfold splice.
  pose proof (keeps_snd P _ this1 (keeps_executeTopStatements
                (drop (length imported) (statements moduleNode))) H) as H'.
  destruct (executeTopStatements host self _ this1) as [r this2]. exact H'.
Qed.

End Step.

Lemma evalModule_keeps fuel :
  forall tree this,
    P (_system this) ->
    P (_system (snd (evalModule (evaluator host fuel) tree this))).
Proof.
  induction fuel as [|fuel IH]; intros tree this HP; [exact HP|].
  destruct (evaluator_keeps host P host_keeps fuel) as [He Hb].
  now apply executeModule_keeps.
Qed.

End ModuleFrame.

(** X17: [stderr] is written by [execute] only, and at most once in a run.
    With a host whose internal routines do not write to [stderr], a run
    adds the text of the exception when the module throws a
    [RuntimeException], and nothing in every other case: no expression,
    statement, code block or import writes to [stderr]. *)
Theorem execute_writes_stderr_once host fuel tree code this :
  internalFuncsKeep host (fun sys => stderr sys = stderr (_system this)) ->
  let after := stderr (_system (snd (execute host fuel tree code this))) in
  match fst (fst (evalModule (evaluator host fuel) tree (atStart code this))) with
  | Throw (Fail_ (RuntimeError er)) =>
      after = (stderr (_system this) ++ [exceptionToString host er])%list
  | _ => after = stderr (_system this)
  end.
Proof.
  intros Hhost.
  pose proof (evalModule_keeps host _ Hhost ltac:(intros sys text H; exact H)
                fuel tree (atStart code this) eq_refl) as H.
  unfold execute. fold (atStart code this).
  destruct (evalModule (evaluator host fuel) tree (atStart code this))
    as [[r tree'] this1]. simpl in H.
  destruct r as [[]|[[er|msg]|[] data]|]; simpl; try exact H. now rewrite H.
Qed.

Lemma execute_writes_stderr_once_witness :
  let tree := Module_ [Sample.stmt (ExpressionStatement (Sample.text "a"));
                       Sample.stmt (ExpressionStatement (Sample.var "x"));
                       Sample.stmt (ExpressionStatement (Sample.var "y"))] in
  internalFuncsKeep Sample.silentHost
    (fun sys => stderr sys = stderr (_system Sample.interpreter))
  ∧ stderr (_system (snd (execute Sample.silentHost 3 tree None
                            Sample.interpreter)))
    = ["UndefinedIdentifier"].
Proof.
  intros tree.
  assert (Hhost : internalFuncsKeep Sample.silentHost
                    (fun sys => stderr sys = stderr (_system Sample.interpreter)))
    by (intros fn m sys H; exact H).
  split; [exact Hhost|].
  exact (execute_writes_stderr_once Sample.silentHost 3 tree None
           Sample.interpreter Hhost).
Defined.

(** ** The scope stack, again *)

Lemma Sample_host_keeps_depth : internalFuncsKeepDepth Sample.host.
Proof.
  intros fn m sys. unfold Sample.host, Sample.executeInternalFunc. simpl.
  repeat case_match; reflexivity.
Qed.

(** X18: what returns is balanced.  With a host whose internal routines
    keep the depth of the scope stack, and a memory of at least one scope,
    every expression that evaluates to a value, and every code block that
    runs to its end or executes a return statement, leaves the scope stack
    as deep as it was and the State as it was: each call along the way has
    released its scope and its frame. *)
Theorem evaluation_that_returns_is_balanced host fuel :
  internalFuncsKeepDepth host ->
  (forall node this v this',
      1 <= Memory.depth (_memory this) ->
      evalExpressionNode (evaluator host fuel) node this = (Ok v, this') ->
      Memory.depth (_memory this') = Memory.depth (_memory this)
      ∧ _state this' = _state this)
  ∧ (forall block this r this',
        1 <= Memory.depth (_memory this) ->
        evalCodeBlock (evaluator host fuel) block this = (r, this') ->
        r = Ok tt ∨ (exists data, r = Throw (ControlFlowException Return data)) ->
        Memory.depth (_memory this') = Memory.depth (_memory this)
        ∧ _state this' = _state this).
Proof.
  intros Hhost. destruct (evaluator_releases host Hhost fuel) as [He Hb]. split.
  - intros node this v this' Hd H.
    pose proof (He node _ (_state this) Hd this (conj eq_refl eq_refl)) as H'.
    now rewrite H in H'.
  - intros block this r this' Hd H Hr.
    pose proof (Hb block _ (_state this) Hd this (conj eq_refl eq_refl)) as H'.
    rewrite H in H'. destruct Hr as [->|[data ->]]; [exact H'|].
    apply H'. intros Hn. now apply (Hn data).
Qed.

Lemma evaluation_that_returns_is_balanced_witness :
  let fn := FuncDeclaration (Some [mkParam "a" "text"])
              (CodeBlock [Sample.stmt (Declaration variable "local"
                                         (Sample.var "a") None false);
                          Sample.stmt (ReturnStatement (Sample.var "local"))])
              None in
  let cell := mkMemoryValue constant "f" "func" fn None in
  let this := withMemory [ {[ "f" := cell ]} ] Sample.interpreter in
  let r := evalExpressionNode (evaluator Sample.host 4)
             (Sample.call "f" [Sample.text "x"]) this in
  fst r = Ok (TextLiteral "x" None)
  ∧ Memory.depth (_memory (snd r)) = Memory.depth (_memory this)
  ∧ _state (snd r) = _state this.
Proof.
  intros fn cell this r. split; [reflexivity|].
  exact (proj1 (evaluation_that_returns_is_balanced Sample.host 4
                  Sample_host_keeps_depth)
           (Sample.call "f" [Sample.text "x"]) this (TextLiteral "x" None)
           (snd r) ltac:(simpl; lia) eq_refl).
Defined.

Lemma releases_returnsBalanced {A} (m : Exec A) d s :
  releases m d s -> returnsBalanced m d s.
Proof.
  intros H this HP. specialize (H this HP).
  destruct (m this) as [[a|ex|] this']; [exact H|exact I|exact I].
Qed.

Lemma returnsBalanced_bind {A B} (m : Exec A) (k : A -> Exec B) d s :
  returnsBalanced m d s -> (forall a, returnsBalanced (k a) d s) ->
  returnsBalanced (bind m k) d s.
Proof. intros Hm Hk. now apply hoare_bind with (R := fun _ => balanced d s). Qed.

Lemma returnsBalanced_ret {A} (a : A) d s : returnsBalanced (ret a) d s.
Proof. intros this HP. exact HP. Qed.

Section ModuleBalance.

Context (host : Host) (self : Evaluator).
Hypothesis self_expression :
  forall node d s, 1 <= d -> releasesQuietly (evalExpressionNode self node) d s.
Hypothesis self_block :
  forall block d s, 1 <= d -> releases (evalCodeBlock self block) d s.
Hypothesis self_module :
  forall tree this tree' this',
    1 <= Memory.depth (_memory this) ->
    evalModule self tree this = (Ok tt, tree', this') ->
    balanced (Memory.depth (_memory this)) (_state this) this'.

Lemma returnsBalanced_executeTopStatements statementsToExecute d s :
  1 <= d ->
  returnsBalanced (executeTopStatements host self statementsToExecute) d s.
Proof.
  intros Hd. induction statementsToExecute as [|statement rest IH]; simpl;
    [apply returnsBalanced_ret|].
  apply returnsBalanced_bind;
    [now apply releases_returnsBalanced, releases_executeStatement|].
  intros output. apply returnsBalanced_bind; [|intros _; exact IH].
  destruct output as [v|]; [destruct (decide _)|];
    intros this HP; exact HP.
Qed.

Lemma returnsBalanced_executeImportNode path d s :
  1 <= d -> returnsBalanced (executeImportNode host self path) d s.
Proof.
  intros Hd. unfold executeImportNode. apply returnsBalanced_bind.
  - destruct (loadModule host path); intros this HP; [exact HP|exact I].
  - intros tree this [HP1 HP2].
    pose proof (self_module tree this) as H.
    destruct (evalModule self tree this) as [[r tree'] this'].
    destruct r as [[]|ex|]; [|exact I|exact I].
    rewrite <- HP1, <- HP2. apply (H tree' this'); [lia|reflexivity].
Qed.

Lemma returnsBalanced_executeAllTopImports l d s :
  1 <= d ->
  forall importedModules,
    returnsBalanced (executeAllTopImports host self l importedModules) d s.
Proof.
  intros Hd. induction l as [|[body position] rest IH]; intros importedModules;
    simpl; [apply returnsBalanced_ret|].
  destruct body; try apply returnsBalanced_ret.
  apply returnsBalanced_bind; [now apply returnsBalanced_executeImportNode|].
  intros _. apply IH.
Qed.

Lemma executeModule_balanced moduleNode this moduleNode' this' :
  1 <= Memory.depth (_memory this) ->
  executeModule host self moduleNode this = (Ok tt, moduleNode', this') ->
  balanced (Memory.depth (_memory this)) (_state this) this'.
Proof.
  intros Hd. unfold executeModule.
  pose proof (returnsBalanced_executeAllTopImports (statements moduleNode) _
                (_state this) Hd [] this (conj eq_refl eq_refl)) as H.
  destruct (executeAllTopImports host self (statements moduleNode) [] this)
    as [[imported|ex|] this1]; [|done|done].
  unfold splice.
  pose proof (returnsBalanced_executeTopStatements
                (drop (length imported) (statements moduleNode)) _ _ Hd this1 H)
    as H'.
  destruct (executeTopStatements host self _ this1) as [r this2].
  intros [= -> _ <-]. exact H'.
Qed.

End ModuleBalance.

Lemma evalModule_balanced host fuel :
  internalFuncsKeepDepth host ->
  forall tree this tree' this',
    1 <= Memory.depth (_memory this) ->
    evalModule (evaluator host fuel) tree this = (Ok tt, tree', this') ->
    balanced (Memory.depth (_memory this)) (_state this) this'.
Proof.
  intros Hhost. induction fuel as [|fuel IH]; intros tree this tree' this' Hd;
    [done|].
  destruct (evaluator_releases host Hhost fuel) as [He Hb].
  now apply executeModule_balanced.
Qed.

(** X19: a module that runs to its end, its imports included, leaves the
    memory with exactly one scope, the global one, and the State as it was:
    with a host whose internal routines keep the depth of the scope stack,
    [execute] then returns with the interpreter in that state. *)
Theorem execute_leaves_one_scope host fuel tree code this tree' this1 :
  internalFuncsKeepDepth host ->
  evalModule (evaluator host fuel) tree (atStart code this)
  = (Ok tt, tree', this1) ->
  execute host fuel tree code this = (Ok tt, tree', this1)
  ∧ Memory.depth (_memory this1) = 1
  ∧ _state this1 = _state this.
Proof.
  intros Hhost H. split.
  - unfold execute. fold (atStart code this). now rewrite H.
  - exact (evalModule_balanced host fuel Hhost tree (atStart code this) tree'
             this1 ltac:(simpl; lia) H).
Qed.

Lemma execute_leaves_one_scope_witness :
  let tree := Module_ [
    Sample.stmt (ImportStatement "lib");
    Sample.stmt (Declaration constant "f"
      (Sample.func [mkParam "a" "text"]
         [Sample.stmt (ReturnStatement (Sample.var "a"))]) None false);
    Sample.stmt (ExpressionStatement (Sample.call "f" [Sample.var "greeting"]))] in
  let r := execute Sample.host 5 tree None Sample.interpreter in
  fst (fst r) = Ok tt
  ∧ stdout (_system (snd r)) = ["hello"]
  ∧ Memory.depth (_memory (snd r)) = 1
  ∧ _state (snd r) = [].
Proof.
  intros tree r.
  pose (run := evalModule (evaluator Sample.host 5) tree
                 (atStart None Sample.interpreter)).
  assert (Hrun : run = (Ok tt, snd (fst run), snd run))
    by (vm_compute; reflexivity).
  destruct (execute_leaves_one_scope Sample.host 5 tree None Sample.interpreter
              (snd (fst run)) (snd run) Sample_host_keeps_depth Hrun)
    as (Hexec & Hdepth & Hstate).
  subst r. rewrite Hexec. simpl fst. simpl snd.
  split; [reflexivity|]. split; [vm_compute; reflexivity|].
  split; [exact Hdepth|exact Hstate].
Defined.

(** ** Imports *)

(** The list handed to the loop over the imports only grows. *)
Lemma executeAllTopImports_acc host self l :
  forall acc this,
    executeAllTopImports host self l acc this
    = match executeAllTopImports host self l [] this with
      | (Ok imported, this') => (Ok (acc ++ imported)%list, this')
      | r => r
      end.
Proof.
  induction l as [|[body position] rest IH]; intros acc this; simpl.
  - unfold ret. now rewrite app_nil_r.
  - destruct body as [| | | | |path]; simpl; unfold ret;
      try (now rewrite app_nil_r).
    unfold bind.
    destruct (executeImportNode host self path this) as [[[]|ex|] this1];
      try reflexivity.
    rewrite (IH (acc ++ [path])%list), (IH ([] ++ [path])%list).
    destruct (executeAllTopImports host self rest [] this1)
      as [[imported|ex|] this2]; try reflexivity.
    now rewrite <- app_assoc.
Qed.

(** X20: an import runs the imported module in the interpreter of the
    importer, and the importer goes on from where it ends.  When the file of
    a leading import loads and its module runs to its end, the importing
    module behaves as its remaining statements do in the interpreter the
    imported module left, so that the declarations (and the output) of the
    import are those of the importer; and the import statement stays in
    the module. *)
Theorem executeModule_import host self path position rest this tree tree'
    this1 :
  loadModule host path = Returned tree ->
  evalModule self tree this = (Ok tt, tree', this1) ->
  executeModule host self
    (Module_ (Statement (ImportStatement path) position :: rest)) this
  = let '(r, after, this2) := executeModule host self (Module_ rest) this1 in
    (r,
     match fst (executeAllTopImports host self rest [] this1) with
     | Ok _ => Module_ (Statement (ImportStatement path) position
                          :: statements after)
     | _ => Module_ (Statement (ImportStatement path) position :: rest)
     end,
     this2).
Proof.
  intros Hload Hrun. unfold executeModule. cbn [statements].
  cbn [executeAllTopImports].
  assert (Himport : executeImportNode host self path this = (Ok tt, this1)).
  { unfold executeImportNode. rewrite Hload. cbn [liftHost].
    unfold bind, ret. now rewrite Hrun. }
  rewrite (bind_Ok _ _ _ _ _ Himport).
  rewrite executeAllTopImports_acc.
  destruct (executeAllTopImports host self rest [] this1)
    as [[imported|ex|] this2]; try reflexivity.
  unfold splice. simpl.
  destruct (executeTopStatements host self _ this2) as [r this3]. reflexivity.
Qed.

Lemma executeModule_import_witness :
  let rest := [Sample.stmt (ExpressionStatement (Sample.var "greeting"))] in
  let tree := Module_ (Statement (ImportStatement "lib") None :: rest) in
  let r := executeModule Sample.host (evaluator Sample.host 3) tree
             Sample.interpreter in
  fst (fst r) = Ok tt
  ∧ snd (fst r) = Module_ [Statement (ImportStatement "lib") None]
  ∧ stdout (_system (snd r)) = ["hello"].
Proof.
  intros rest tree r.
  pose (imported := match Sample.loadModule "lib" with
                    | Returned t => t
                    | Failed _ => Module_ []
                    end).
  pose (run := evalModule (evaluator Sample.host 3) imported Sample.interpreter).
  assert (Hrun : run = (Ok tt, snd (fst run), snd run))
    by (vm_compute; reflexivity).
  pose proof (executeModule_import Sample.host (evaluator Sample.host 3) "lib"
                None rest Sample.interpreter imported (snd (fst run)) (snd run)
                eq_refl Hrun) as H.
  subst r tree. rewrite H. vm_compute. repeat split.
Defined.

(** ** Internal routines *)

(** X21: what an internal routine is called with, and what is done with
    what it leaves.  In a call of an internal function of one parameter,
    the routine receives the memory in which the new innermost scope holds
    the parameter bound to the value of the argument, and the system as the
    argument left it; when it returns, its value is the value of the call,
    the system is the one it leaves, the innermost scope of the memory it
    leaves is dropped and the State is the one from before the call. *)
Theorem executeFunctionCall_internal host self id arg position p this this1
    cell v m1 r m2 sys2 :
  Memory.get (_memory this) id = inr cell ->
  type cell = "internalFunc" ->
  typeOf (value cell) ≠ TNothingLiteral ->
  parametersOf (value cell) = [p] ->
  evalExpressionNode self arg (atCallEntry this) = (Ok v, this1) ->
  valueToDataType host (typeOf v) = param_dataType p ->
  Memory.set (_memory this1) (param_identifier p) (argumentCell p v) = inr m1 ->
  executeInternalFunc host (value cell) m1 (_system this1)
  = (Returned r, m2, sys2) ->
  executeFunctionCall host self id (Some [arg]) position this
  = (Ok r,
     mkInterpreter (Memory.clearScope m2) (State.pop (_state this1)) sys2
       (_code this1)).
Proof.
  intros Hget Hty Hnot Hparams Harg Hp Hset Hrun.
  rewrite (executeFunctionCall_entry host self id _ position this cell Hget
             (or_intror Hty) Hnot) by now rewrite Hparams.
  rewrite Hparams. simpl default.
  assert (Hloop : forEachParam host self [p] 0 [arg] (atCallEntry this)
                  = (Ok tt, withMemory m1 this1)).
  { now rewrite (forEachParam_cons host self p [] 0 _ arg _ this1 v m1). }
  rewrite (bind_Ok _ _ _ _ _ Hloop).
  destruct (decide (type cell = "internalFunc")); [|done].
  unfold bind, callInternalFunc. simpl. rewrite Hrun. reflexivity.
Qed.

Lemma executeFunctionCall_internal_witness :
  let p := mkParam "value" "text" in
  let fn := InternalFuncDeclaration "quackprint" (Some [p]) None in
  let cell := mkMemoryValue constant "quackprint" "internalFunc" fn None in
  let this := withMemory [ {[ "quackprint" := cell ]} ] Sample.interpreter in
  executeFunctionCall Sample.host (evaluator Sample.host 1) "quackprint"
    (Some [Sample.text "hello world"]) None this
  = (Ok (NothingLiteral None),
     mkInterpreter (_memory this) [] (mkSystem ["hello world"] []) None).
Proof.
  intros p fn cell this.
  exact (executeFunctionCall_internal Sample.host (evaluator Sample.host 1)
           "quackprint" (Sample.text "hello world") None p this
           (atCallEntry this) cell (TextLiteral "hello world" None)
           [ {[ "value" := argumentCell p (TextLiteral "hello world" None) ]};
             {[ "quackprint" := cell ]} ]
           (NothingLiteral None)
           [ {[ "value" := argumentCell p (TextLiteral "hello world" None) ]};
             {[ "quackprint" := cell ]} ]
           (mkSystem ["hello world"] [])
           eq_refl eq_refl ltac:(done) eq_refl eq_refl eq_refl eq_refl eq_refl).
Defined.
